(** * app.js, the presentation runner: embedding and verified properties

    The source file holds two versions of the runner: the first one
    (lines 1-201, module [Naive] below) and the hardened one (lines 202-508,
    module [Hardened]).  JavaScript numbers are binary64 floats and are
    modelled by Rocq's primitive floats wherever the script does
    non-integer arithmetic; slide indices are integers and are kept in [Z].
    Strings are byte strings (UTF-8), so the bullet sign takes three bytes. *)

From Stdlib Require Import ZArith Floats Uint63 Ascii String.
From stdpp Require Import base decidable option list strings pretty gmap.

Set Warnings "-inexact-float".

(** ** The JavaScript runtime pieces the script relies on *)

Module Js.

(** How a call ends: normally with a value, or with an exception. *)
Inductive Completion (A : Type) : Type :=
| Normal (a : A)
| Throw (err : string).
Arguments Normal {A} a.
Arguments Throw {A} err.

#[export] Instance completion_ret : MRet Completion := λ A a, Normal a.
#[export] Instance completion_bind : MBind Completion := λ A B f c,
  match c with
  | Normal a => f a
  | Throw e => Throw e
  end.

(** An integer as a JavaScript number. *)
Definition Number (z : Z) : float :=
  if (0 <=? z)%Z then PrimFloat.of_uint63 (Uint63.of_Z z)
  else PrimFloat.opp (PrimFloat.of_uint63 (Uint63.of_Z (- z))).

(** What [Math.round] returns: an integer, NaN or an infinity. *)
Inductive Rounded : Type :=
| RInt (z : Z)
| RNaN
| RInf (negative : bool).

(** [Math.round x]: the integer closest to [x], ties going up.  The float
    is taken apart into sign, mantissa and exponent, and the rounding is
    done on the exact value [m * 2^e]. *)
Definition Math_round (x : float) : Rounded :=
  match Prim2SF x with
  | S754_zero _ => RInt 0
  | S754_infinity s => RInf s
  | S754_nan => RNaN
  | S754_finite s m e =>
      let num := (if s then Z.neg m else Z.pos m) in
      if (0 <=? e)%Z then RInt (num * 2 ^ e)
      else let d := (2 ^ (- e))%Z in RInt ((2 * num + d) / (2 * d))
  end.

(** [String(v)] of a [Math.round] result, as a template literal prints it. *)
Definition String_of_rounded (r : Rounded) : string :=
  match r with
  | RInt z => pretty z
  | RNaN => "NaN"
  | RInf false => "Infinity"
  | RInf true => "-Infinity"
  end.

(** Truthiness of an optional string: [undefined] and [""] are falsy. *)
Definition truthy (v : option string) : bool :=
  match v with
  | Some s => negb (bool_decide (s = ""))
  | None => false
  end.

(** [v || dflt] on an optional string. *)
Definition or_default (v : option string) (dflt : string) : string :=
  match v with
  | Some s => if bool_decide (s = "") then dflt else s
  | None => dflt
  end.

Definition lower_ascii (c : ascii) : ascii :=
  let n := nat_of_ascii c in
  if (65 <=? n)%nat && (n <=? 90)%nat then ascii_of_nat (n + 32) else c.

(** [s.toLowerCase()], on ASCII letters. *)
Fixpoint toLowerCase (s : string) : string :=
  match s with
  | EmptyString => EmptyString
  | String c r => String (lower_ascii c) (toLowerCase r)
  end.

(** [s.startsWith(p)]. *)
Definition startsWith (p s : string) : bool := String.prefix p s.

End Js.
Import Js.

(** ** The page: class lists, slide elements, navigation state *)

Module Dom.

(** A [classList] is an ordered set of tokens. *)
Definition contains (tok : string) (cl : list string) : bool :=
  bool_decide (tok ∈ cl).
Definition add (tok : string) (cl : list string) : list string :=
  if contains tok cl then cl else cl ++ [tok].
Definition remove (tok : string) (cl : list string) : list string :=
  filter (λ t, t ≠ tok) cl.
(** [classList.toggle(tok, force)]. *)
Definition toggle (tok : string) (force : bool) (cl : list string) : list string :=
  if force then add tok cl else remove tok cl.

(** Children of a slide's content wrapper. *)
Inductive ContentNode : Type :=
| P (text : string)
| UL (items : list string).

(** A rendered [<section class="slide">]. *)
Record SlideEl : Type := mkSlideEl {
  data_index : string;
  classes : list string;
  style : list (string * string);
  h1 : string;
  h2 : option string;
  note : option string;
  content : list ContentNode
}.

Definition with_classes (f : list string → list string) (el : SlideEl) : SlideEl :=
  {| data_index := data_index el; classes := f (classes el); style := style el;
     h1 := h1 el; h2 := h2 el; note := note el; content := content el |}.

Definition is_visible (el : SlideEl) : bool := contains "visible" (classes el).

(** The script's navigation variables: [slideEls] (which are the stage's
    slide elements themselves, not copies), [current], and the two
    optional displays.  [counter] holds the counter's [textContent] and
    [progressFill] the string last assigned to its [style.width]; [None]
    means the element is missing from the page ([qs] returned [null]). *)
Record Nav : Type := mkNav {
  slideEls : list SlideEl;
  current : Z;
  counter : option string;
  progressFill : option string
}.

Definition total (s : Nav) : Z := Z.of_nat (length (slideEls s)).

(** Indices of the slide elements that carry the [visible] class. *)
Fixpoint visible_from (k : nat) (els : list SlideEl) : list nat :=
  match els with
  | [] => []
  | el :: r =>
      if is_visible el then k :: visible_from (S k) r
      else visible_from (S k) r
  end.
Definition visible_indices (s : Nav) : list nat := visible_from 0 (slideEls s).

(** Assigning a property of an element that may be [null]. *)
Definition assign (el : option string) (v : string) : Completion (option string) :=
  match el with
  | Some _ => Normal (Some v)
  | None => Throw "TypeError: Cannot set properties of null"
  end.

End Dom.
Import Dom.

(** ** Navigation *)

(** [slideEls.forEach((el, i) => el.classList.toggle("visible", i === current))] *)
Definition mark_visible (cur : Z) (els : list SlideEl) : list SlideEl :=
  imap (λ i el, with_classes (toggle "visible" (bool_decide (Z.of_nat i = cur))) el) els.

(** [Math.round(((current + 1) / slideEls.length) * 100)] *)
Definition pct (cur n : Z) : Rounded :=
  Math_round (PrimFloat.mul (PrimFloat.div (Number (cur + 1)) (Number n)) 100%float).

(** The counter text of lines 92 and 373. *)
Definition counter_text (cur n : Z) : string :=
  pretty (cur + 1)%Z +:+ " / " +:+ pretty n.

(** The width of lines 94 and 376. *)
Definition width_text (cur n : Z) : string :=
  String_of_rounded (pct cur n) +:+ "%".

Module Naive.

(** Lines 90-95: the displays are written without a check. *)
Definition updateUI (s : Nav) : Completion Nav :=
  let els := mark_visible (current s) (slideEls s) in
  c ← assign (counter s) (counter_text (current s) (total s));
  p ← assign (progressFill s) (width_text (current s) (total s));
  mret {| slideEls := els; current := current s; counter := c; progressFill := p |}.

(** Lines 97-102.  The closing [scrollIntoView] moves the viewport only and
    is not part of the state. *)
Definition goto (n : Z) (s : Nav) : Completion Nav :=
  let n := if (n <? 0)%Z then 0%Z else n in
  let n := if (total s <=? n)%Z then (total s - 1)%Z else n in
  updateUI {| slideEls := slideEls s; current := n;
              counter := counter s; progressFill := progressFill s |}.

End Naive.

Module Hardened.

(** Lines 370-378: each display is written only when it exists. *)
Definition updateUI (s : Nav) : Completion Nav :=
  let els := mark_visible (current s) (slideEls s) in
  c ← (if counter s is Some _ then assign (counter s) (counter_text (current s) (total s))
       else Normal (counter s));
  p ← (if progressFill s is Some _ then assign (progressFill s) (width_text (current s) (total s))
       else Normal (progressFill s));
  mret {| slideEls := els; current := current s; counter := c; progressFill := p |}.

(** Lines 380-388, again without the [scrollIntoView]. *)
Definition goto (n : Z) (s : Nav) : Completion Nav :=
  if (total s =? 0)%Z then Normal s
  else
    let n := if (n <? 0)%Z then 0%Z else n in
    let n := if (total s <=? n)%Z then (total s - 1)%Z else n in
    updateUI {| slideEls := slideEls s; current := n;
                counter := counter s; progressFill := progressFill s |}.

End Hardened.

(** ** Rendering a slide body *)

Module Render.

(** A body entry of content.json: a string, or some other JSON value. *)
Inductive BodyItem : Type :=
| BStr (s : string)
| BOther.

(** A slide record of content.json.  [body] is [None] when the field is
    absent or not an array. *)
Record Slide : Type := mkSlide {
  title : option string;
  subtitle : option string;
  s_note : option string;
  body : option (list BodyItem)
}.

(** [\s] of the regular expression, on ASCII. *)
Definition is_space (c : ascii) : bool :=
  let n := nat_of_ascii c in
  (n =? 32)%nat || ((9 <=? n)%nat && (n <=? 13)%nat).

Definition is_bullet (par : string) : bool :=
  startsWith "• " par || startsWith "- " par.

(** One attempt of [/^•\s|-\s/] at a position of the subject: the first
    alternative is tied to the start of the string, the second is not.
    On success the text after the match is returned. *)
Definition match_marker (at_start : bool) (s : string) : option string :=
  match s with
  | String "226" (String "128" (String "162" (String c r))) =>
      if at_start && is_space c then Some r else None
  | String "-" (String c r) => if is_space c then Some r else None
  | _ => None
  end.

Fixpoint replace_from (at_start : bool) (s : string) : string :=
  match match_marker at_start s with
  | Some r => r
  | None =>
      match s with
      | EmptyString => EmptyString
      | String c r => String c (replace_from false r)
      end
  end.

(** [par.replace(/^•\s|-\s/, "")]: the leftmost match is removed. *)
Definition strip_marker (par : string) : string := replace_from true par.

(** [ul.appendChild(li)] on a child of the content wrapper. *)
Definition append_li (text : string) (n : ContentNode) : ContentNode :=
  match n with
  | UL items => UL (items ++ [text])
  | P t => P t
  end.

(** Position of the first list among the children:
    [contentWrap.querySelector("ul")]. *)
Fixpoint querySelector_ul (kids : list ContentNode) : option nat :=
  match kids with
  | [] => None
  | UL _ :: _ => Some 0
  | P _ :: r => S <$> querySelector_ul r
  end.

(** The spec's reading of the body rules: bullet lines that follow each
    other share a list, a paragraph closes the list, and the next bullet
    line opens a new one.  [open] tells whether the last child is a list
    still being filled. *)
Fixpoint renderBody_spec_go (open : bool) (kids : list ContentNode)
    (items : list BodyItem) : list ContentNode :=
  match items with
  | [] => kids
  | BOther :: r => renderBody_spec_go open kids r
  | BStr s :: r =>
      if is_bullet s then
        if open then
          renderBody_spec_go true
            (alter (append_li (strip_marker s)) (length kids - 1) kids) r
        else renderBody_spec_go true (kids ++ [UL [strip_marker s]]) r
      else renderBody_spec_go false (kids ++ [P s]) r
  end.
Definition renderBody_spec (items : list BodyItem) : list ContentNode :=
  renderBody_spec_go false [] items.

End Render.
Import Render.

Module NaiveRender.

(** Lines 58-69: the wrapper's children after one body entry. *)
Definition body_item (kids : list ContentNode) (par : BodyItem) : list ContentNode :=
  match par with
  | BOther => kids
  | BStr s =>
      if is_bullet s then
        let found := querySelector_ul kids in
        let kids1 := if found is Some _ then kids else kids ++ [UL []] in
        let i := if found is Some i then i else length kids in
        alter (append_li (strip_marker s)) i kids1
      else kids ++ [P s]
  end.

Definition renderBody (items : list BodyItem) : list ContentNode :=
  foldl body_item [] items.

End NaiveRender.

Module HardenedRender.

(** Lines 339-355.  The state is the wrapper's children and the variable
    [ul]: the position of the list it points to, [None] while it is
    [null]. *)
Definition body_item (st : list ContentNode * option nat) (par : BodyItem)
    : list ContentNode * option nat :=
  match par with
  | BOther => st
  | BStr s =>
      if is_bullet s then
        let kids1 := if st.2 is Some _ then st.1 else st.1 ++ [UL []] in
        let i := if st.2 is Some i then i else length st.1 in
        (alter (append_li (strip_marker s)) i kids1, Some i)
      else (st.1 ++ [P s], st.2)
  end.

Definition renderBody (items : list BodyItem) : list ContentNode :=
  (foldl body_item ([], None) items).1.

(** Lines 301-362, one iteration: the section built for slide [idx]. *)
Definition renderSlide (idx : nat) (s : Slide) : SlideEl :=
  {| data_index := pretty idx;
     classes := ["slide"];
     style := [];
     h1 := or_default (title s) "";
     h2 := if truthy (subtitle s) then subtitle s else None;
     note := if truthy (s_note s) then s_note s else None;
     content := if body s is Some items then renderBody items else [] |}.

End HardenedRender.

(** ** Themes and the contrast class *)

Module Theme.

Record Theme : Type := mkTheme {
  accent : string;
  accent2 : string;
  textOnAccent : string
}.

Definition pink : Theme := mkTheme "#ff6ba6" "#ff9ccf" "#ffffff".

(** The own properties of the [themeMap] literal (lines 272-277). *)
Definition themeMap : gmap string Theme :=
  list_to_map
    [("pink", pink);
     ("purple", mkTheme "#7c5cff" "#b39bff" "#ffffff");
     ("blue", mkTheme "#2f7bff" "#79b2ff" "#ffffff");
     ("black", mkTheme "#1f1f23" "#3a3a44" "#ffffff")].

(** [themeMap] is an object literal, so a property read that finds no own
    property goes on to [Object.prototype].  These are its property
    names. *)
Definition Object_prototype : list string :=
  ["constructor"; "__defineGetter__"; "__defineSetter__"; "hasOwnProperty";
   "__lookupGetter__"; "__lookupSetter__"; "isPrototypeOf";
   "propertyIsEnumerable"; "toString"; "valueOf"; "__proto__";
   "toLocaleString"].

(** The value of [themeMap[key]]. *)
Inductive Property : Type :=
| Own (t : Theme)
| Inherited (name : string)
| Undefined.

Definition get (key : string) : Property :=
  match themeMap !! key with
  | Some t => Own t
  | None =>
      if bool_decide (key ∈ Object_prototype) then Inherited key else Undefined
  end.

(** Lines 278-279.  Every inherited value is a function or an object,
    hence truthy, and [||] keeps it. *)
Definition resolve (theme : option string) : Property :=
  let tKey := toLowerCase (or_default theme "pink") in
  match get tKey with
  | Undefined => Own pink
  | found => found
  end.

(** [theme.accent] and [theme.accent2]; [None] is [undefined]. *)
Definition accent_of (t : Property) : option string :=
  if t is Own t then Some (accent t) else None.
Definition accent2_of (t : Property) : option string :=
  if t is Own t then Some (accent2 t) else None.

(** [h.replace("#", "")]: the first ["#"] is dropped. *)
Fixpoint drop_hash (s : string) : string :=
  match s with
  | EmptyString => EmptyString
  | String c r => if bool_decide (c = "#"%char) then r else String c (drop_hash r)
  end.

Definition hex_digit (c : ascii) : option Z :=
  let n := nat_of_ascii c in
  if (48 <=? n)%nat && (n <=? 57)%nat then Some (Z.of_nat (n - 48))
  else if (97 <=? n)%nat && (n <=? 102)%nat then Some (Z.of_nat (n - 87))
  else if (65 <=? n)%nat && (n <=? 70)%nat then Some (Z.of_nat (n - 55))
  else None.

Fixpoint hex_digits (acc : option Z) (s : string) : option Z :=
  match s with
  | EmptyString => acc
  | String c r =>
      match hex_digit c with
      | Some d => hex_digits (Some (16 * default 0 acc + d)%Z) r
      | None => acc
      end
  end.

Fixpoint skip_spaces (s : string) : string :=
  match s with
  | String c r => if is_space c then skip_spaces r else s
  | EmptyString => EmptyString
  end.

(** [parseInt(s, 16)]: leading blanks, a sign, an optional [0x], then the
    longest run of hex digits; NaN when there is none. *)
Definition parseInt16 (s : string) : float :=
  let s := skip_spaces s in
  let '(neg, s) := match s with
                   | String "-" r => (true, r)
                   | String "+" r => (false, r)
                   | _ => (false, s)
                   end in
  let s := match s with
           | String "0" (String "x" r) => r
           | String "0" (String "X" r) => r
           | _ => s
           end in
  match hex_digits None s with
  | Some z => if neg then PrimFloat.opp (Number z) else Number z
  | None => nan
  end.

(** Lines 285-288. *)
Definition hexToRgb (hex : option string) : Completion (float * float * float) :=
  match hex with
  | None => Throw "TypeError: Cannot read properties of undefined (reading 'replace')"
  | Some hex =>
      let h := drop_hash hex in
      Normal (parseInt16 (substring 0 2 h),
              parseInt16 (substring 2 2 h),
              parseInt16 (substring 4 2 h))
  end.

Section Luminance.
(** [Math.pow] is specified only up to the engine's approximation, so
    it is a parameter. *)
Variable Math_pow : float → float → float.

(** The second [map] of line 292. *)
Definition linear (v : float) : float :=
  if PrimFloat.leb v 0.03928
  then (v / 12.92)%float
  else Math_pow ((v + 0.055) / 1.055)%float 2.4%float.

(** Lines 289-294. *)
Definition lum (hex : option string) : Completion float :=
  rgb ← hexToRgb hex;
  let r := linear (rgb.1.1 / 255)%float in
  let g := linear (rgb.1.2 / 255)%float in
  let b := linear (rgb.2 / 255)%float in
  mret (0.2126 * r + 0.7152 * g + 0.0722 * b)%float.
End Luminance.

(** Lines 296-297 on [document.body.classList]. *)
Definition contrast (aLum : float) (cl : list string) : list string :=
  toggle "dark-text" (PrimFloat.leb aLum 0.5)
    (toggle "light-text" (PrimFloat.ltb 0.5 aLum) cl).

(** A coarse stand-in for [Math.pow], exact at base 1. *)
Definition pow_stub (x y : float) : float := (x * x * PrimFloat.sqrt x)%float.

End Theme.
Import Theme.

(** ** The page and the start-up sequence of the hardened script *)

Module App.

(** The parsed content.json.  [c_slides] is [None] when the field is
    absent or not an array. *)
Record Content : Type := mkContent {
  c_title : option string;
  c_theme : option string;
  c_slides : option (list Slide)
}.

(** How the fetch of content.json ended. *)
Inductive Fetched : Type :=
| NetworkError (msg : string)
| HttpStatus (status : Z)
| BadJson (parser_msg : string)
| Parsed (content : Content).

(** The second argument of [showFatal]. *)
Inductive Detail : Type :=
| NoDetail
| Text (s : string)
| JsonOf (c : Content).

Record Fatal : Type := mkFatal { message : string; detail : Detail }.

(** What the script reads and writes on the page.  [nav] holds the stage's
    slide elements; [fatalError] is the [#fatalError] box; the overlay is
    given by its class list and the status line by its text, [None] when
    the element is missing. *)
Record Page : Type := mkPage {
  stage : bool;
  nav : Nav;
  bodyClasses : list string;
  accentVars : option (string * string);
  fatalError : option Fatal;
  exportOverlay : option (list string);
  exportStatus : option string;
  innerHeight : Z;
  jspdf : bool;
  html2canvas : bool;
  listening : bool;
  cancelRequested : bool
}.

Definition set_nav (n : Nav) (p : Page) : Page :=
  mkPage (stage p) n (bodyClasses p) (accentVars p) (fatalError p)
    (exportOverlay p) (exportStatus p) (innerHeight p) (jspdf p)
    (html2canvas p) (listening p) (cancelRequested p).
Definition set_bodyClasses (c : list string) (p : Page) : Page :=
  mkPage (stage p) (nav p) c (accentVars p) (fatalError p)
    (exportOverlay p) (exportStatus p) (innerHeight p) (jspdf p)
    (html2canvas p) (listening p) (cancelRequested p).
Definition set_accentVars (v : option (string * string)) (p : Page) : Page :=
  mkPage (stage p) (nav p) (bodyClasses p) v (fatalError p)
    (exportOverlay p) (exportStatus p) (innerHeight p) (jspdf p)
    (html2canvas p) (listening p) (cancelRequested p).
Definition set_fatalError (f : option Fatal) (p : Page) : Page :=
  mkPage (stage p) (nav p) (bodyClasses p) (accentVars p) f
    (exportOverlay p) (exportStatus p) (innerHeight p) (jspdf p)
    (html2canvas p) (listening p) (cancelRequested p).
Definition set_exportOverlay (o : option (list string)) (p : Page) : Page :=
  mkPage (stage p) (nav p) (bodyClasses p) (accentVars p) (fatalError p)
    o (exportStatus p) (innerHeight p) (jspdf p)
    (html2canvas p) (listening p) (cancelRequested p).
(** [if (exportStatus) exportStatus.textContent = t] *)
Definition write_status (t : string) (p : Page) : Page :=
  mkPage (stage p) (nav p) (bodyClasses p) (accentVars p) (fatalError p)
    (exportOverlay p) (if exportStatus p is Some _ then Some t else None)
    (innerHeight p) (jspdf p) (html2canvas p) (listening p) (cancelRequested p).
Definition set_listening (b : bool) (p : Page) : Page :=
  mkPage (stage p) (nav p) (bodyClasses p) (accentVars p) (fatalError p)
    (exportOverlay p) (exportStatus p) (innerHeight p) (jspdf p)
    (html2canvas p) b (cancelRequested p).
Definition set_cancelRequested (b : bool) (p : Page) : Page :=
  mkPage (stage p) (nav p) (bodyClasses p) (accentVars p) (fatalError p)
    (exportOverlay p) (exportStatus p) (innerHeight p) (jspdf p)
    (html2canvas p) (listening p) b.

(** Lines 208-234: any earlier box is removed and a new one is appended. *)
Definition showFatal (msg : string) (d : Detail) (p : Page) : Page :=
  set_fatalError (Some (mkFatal msg d)) p.

Definition newline : string := String "010" EmptyString.

(** Lines 406-415, as far as the class list goes. *)
Definition refreshCompact (p : Page) : Page :=
  set_bodyClasses (toggle "compact" (innerHeight p <? 700)%Z (bodyClasses p)) p.

(** A property given to [setProperty], [undefined] printed as a string. *)
Definition css_value (v : option string) : string := default "undefined" v.

Section Init.
Variable Math_pow : float → float → float.

(** Lines 240-420 and the [catch] of lines 505-507.  The result is the
    page once the start-up has run or has stopped. *)
Definition init (fetched : Fetched) (p : Page) : Page :=
  if negb (stage p) then
    showFatal "index.html is missing #stage. The deck renderer needs a container with id='stage'."
      NoDetail p
  else
    match fetched with
    | NetworkError m => showFatal "Could not load content.json." (Text m) p
    | HttpStatus st =>
        showFatal "Could not load content.json."
          (Text ("HTTP " +:+ pretty st +:+ " while fetching content.json")) p
    | BadJson m =>
        showFatal "Could not load content.json."
          (Text ("content.json is not valid JSON. Common cause: unescaped quotes inside strings."
                 +:+ newline +:+ newline +:+ m)) p
    | Parsed content =>
        let slides := default [] (c_slides content) in
        if (length slides =? 0)%nat then
          showFatal "content.json loaded, but contains 0 slides. Expected: { slides: [ ... ] }"
            (JsonOf content) p
        else
          let theme := resolve (c_theme content) in
          let p := set_accentVars
                     (Some (css_value (accent_of theme), css_value (accent2_of theme))) p in
          match lum Math_pow (accent_of theme) with
          | Throw e => showFatal "Unexpected error in app.js." (Text e) p
          | Normal aLum =>
              let p := set_bodyClasses (contrast aLum (bodyClasses p)) p in
              let els := imap HardenedRender.renderSlide slides in
              let p := set_nav {| slideEls := els; current := 0;
                                  counter := counter (nav p);
                                  progressFill := progressFill (nav p) |} p in
              let p := refreshCompact p in
              match Hardened.goto 0 (nav p) with
              | Throw e => showFatal "Unexpected error in app.js." (Text e) p
              | Normal n =>
                  set_cancelRequested false (set_listening true (set_nav n p))
              end
          end
    end.
End Init.

(** What reaches the navigation handlers of lines 393-403 and
    [window.gotoSlide]. *)
Inductive NavEvent : Type :=
| PrevClick
| NextClick
| KeyDown (key : string)
| GotoSlide (n : Z).

Definition on_nav (ev : NavEvent) (s : Nav) : Completion Nav :=
  match ev with
  | PrevClick => Hardened.goto (current s - 1) s
  | NextClick => Hardened.goto (current s + 1) s
  | KeyDown key =>
      if bool_decide (key = " ") then Hardened.goto (current s + 1) s
      else if bool_decide (key = "ArrowRight") then Hardened.goto (current s + 1) s
      else if bool_decide (key = "ArrowLeft") then Hardened.goto (current s - 1) s
      else Normal s
  | GotoSlide n => Hardened.goto n s
  end.

(** The handlers run one after the other on the events as they come. *)
Fixpoint navigate (evs : list NavEvent) (s : Nav) : Completion Nav :=
  match evs with
  | [] => Normal s
  | ev :: r => s' ← on_nav ev s; navigate r s'
  end.

End App.
Import App.

(** ** Export to PDF (hardened script, lines 429-502) *)

Module PdfExport.

(** The canvas [html2canvas] resolves to: its size, and what it shows,
    which is the element it was given. *)
Record Canvas : Type := mkCanvas {
  width : float;
  height : float;
  picture : SlideEl
}.

(** An [addImage] call: the image data and where it goes on the page. *)
Record Image : Type := mkImage {
  imgData : SlideEl;
  img_x : float;
  img_y : float;
  img_w : float;
  img_h : float
}.

(** A jsPDF document: its pages in order, the last one being the page
    that [addImage] draws on.  [new jsPDF] starts with one blank page. *)
Definition Pdf : Type := list (list Image).
Definition new_jsPDF : Pdf := [[]].
Definition addImage (im : Image) (pdf : Pdf) : Pdf :=
  alter (λ pg, pg ++ [im]) (length pdf - 1) pdf.
Definition addPage (pdf : Pdf) : Pdf := pdf ++ [[]].

(** [Math.max] of two numbers. *)
Definition Math_max (a b : float) : float :=
  if PrimFloat.is_nan a || PrimFloat.is_nan b then nan
  else if PrimFloat.ltb a b then b else a.

(** Lines 454-458: the deep copy that is rasterized. *)
Definition for_capture (el : SlideEl) : SlideEl :=
  {| data_index := data_index el; classes := classes el;
     style := style el ++ [("position", "relative"); ("transform", "none");
                           ("opacity", "1"); ("pointer-events", "none")];
     h1 := h1 el; h2 := h2 el; note := note el; content := content el |}.

(** What the user may do while the exporter is suspended.  A second click
    on the export button is left out: the outcome of two overlapping
    exports is not defined. *)
Inductive UserEvent : Type :=
| CancelClick
| NavEv (ev : NavEvent).

(** The places where [exportToPdf] is suspended. *)
Inductive Await : Type :=
| AwaitStart
| AwaitSettle (i : nat)
| AwaitCanvas (i : nat)
| AwaitFinalize.

(** Lines 498-502. *)
Definition cancelClick (p : Page) : Page :=
  set_bodyClasses (remove "exporting" (bodyClasses p))
    (set_exportOverlay (add "hidden" <$> exportOverlay p)
       (set_cancelRequested true p)).

Definition on_user (ev : UserEvent) (p : Page) : Completion Page :=
  match ev with
  | CancelClick => Normal (cancelClick p)
  | NavEv e => n ← on_nav e (nav p); mret (set_nav n p)
  end.

(** The handlers that run during one suspension.  An exception raised by
    a handler would be reported by the browser, not by the exporter; the
    hardened handlers raise none. *)
Fixpoint deliver (evs : list UserEvent) (p : Page) : Completion Page :=
  match evs with
  | [] => Normal p
  | ev :: r => p' ← on_user ev p; deliver r p'
  end.

(** The outcome of one run: the page, the document built so far (when
    the libraries were there) and the file name given to [pdf.save]. *)
Record Exported : Type := mkExported {
  page : Page;
  doc : option Pdf;
  saved : option string
}.

Section Exporter.
(** The events that arrive during each suspension. *)
Variable sched : Await → list UserEvent.
(** Width and height of the canvas rasterized from an element. *)
Variable canvas_size : SlideEl → float * float.
(** Page size of the A4 document, in millimetres. *)
Variables pageW pageH : float.
(** [content.title] *)
Variable deck_title : option string.

Definition html2canvas_of (cloned : SlideEl) : Canvas :=
  mkCanvas (canvas_size cloned).1 (canvas_size cloned).2 cloned.

(** Lines 446-483: the iterations for the indices [idxs], in order. *)
Fixpoint export_loop (idxs : list nat) (st : Page * Pdf) : Completion (Page * Pdf) :=
  match idxs with
  | [] => Normal st
  | i :: rest =>
      if cancelRequested st.1 then Normal st
      else
        n ← Hardened.goto (Z.of_nat i) (nav st.1);
        let p := write_status
                   ("Rendering slide " +:+ pretty (Z.of_nat i + 1)%Z +:+ " / "
                    +:+ pretty (total n) +:+ " ...")
                   (set_nav n st.1) in
        p ← deliver (sched (AwaitSettle i)) p;
        el ← (if slideEls (nav p) !! i is Some el then Normal el
              else Throw "TypeError: Cannot read properties of undefined (reading 'cloneNode')");
        let cloned := for_capture el in
        p ← deliver (sched (AwaitCanvas i)) p;
        let canvas := html2canvas_of cloned in
        let pdfW := pageW in
        let pdfH := (height canvas * pdfW / width canvas)%float in
        let marginTop := Math_max 0 ((pageH - pdfH) / 2)%float in
        let pdf := addImage (mkImage (picture canvas) 0 marginTop pdfW pdfH) st.2 in
        let pdf := if (Z.of_nat i <? total (nav p) - 1)%Z then addPage pdf else pdf in
        export_loop rest (p, pdf)
  end.

(** Lines 429-495.  The overlay is hidden by a timer 400 ms after the
    function returns; the result is the page once it has fired. *)
Definition exportToPdf (p : Page) : Completion Exported :=
  if negb (jspdf p && html2canvas p) then
    Normal (mkExported
              (showFatal "PDF export libraries missing (jsPDF/html2canvas). Make sure index.html includes the CDN scripts."
                 NoDetail p) None None)
  else
    let p := set_cancelRequested false p in
    let p := set_bodyClasses (add "exporting" (bodyClasses p)) p in
    let p := set_exportOverlay (remove "hidden" <$> exportOverlay p) p in
    let p := write_status "Rendering slides to images..." p in
    p ← deliver (sched AwaitStart) p;
    st ← export_loop (seq 0 (length (slideEls (nav p)))) (p, new_jsPDF);
    fin ← (if negb (cancelRequested st.1) then
             p ← deliver (sched AwaitFinalize) (write_status "Finalizing PDF…" st.1);
             mret (p, Some (or_default deck_title "presentation" +:+ ".pdf"))
           else mret (write_status "Export canceled" st.1, None));
    let p := set_bodyClasses (remove "exporting" (bodyClasses fin.1)) fin.1 in
    let p := set_exportOverlay (add "hidden" <$> exportOverlay p) p in
    mret (mkExported p (Some st.2) fin.2).
End Exporter.

End PdfExport.
Import PdfExport.

Definition demo_slide (i : Z) : SlideEl :=
  {| data_index := pretty i; classes := ["slide"]; style := [];
     h1 := "Slide"; h2 := None; note := None; content := [] |}.

Definition demo_nav (n : nat) : Nav :=
  {| slideEls := map (λ i, demo_slide (Z.of_nat i)) (seq 0 n); current := 0;
     counter := Some ""; progressFill := Some "" |}.

Definition demo_body : list BodyItem :=
  [BStr "Intro"; BStr "• point one"; BStr "• point two"; BStr "Outro"].
Definition split_body : list BodyItem :=
  [BStr "• a"; BStr "x"; BStr "- b"].

Definition demo_content (theme : option string) : Content :=
  {| c_title := Some "Deck"; c_theme := theme;
     c_slides := Some [mkSlide (Some "One") None None (Some demo_body);
                       mkSlide (Some "Two") (Some "sub") None None;
                       mkSlide None None (Some "n") (Some split_body)] |}.

Definition blank_page : Page :=
  {| stage := true;
     nav := {| slideEls := []; current := 0; counter := Some ""; progressFill := Some "" |};
     bodyClasses := []; accentVars := None; fatalError := None;
     exportOverlay := Some ["overlay"; "hidden"]; exportStatus := Some "";
     innerHeight := 900; jspdf := true; html2canvas := true;
     listening := false; cancelRequested := false |}.


Definition demo_size (el : SlideEl) : float * float := (1600%float, 900%float).
Definition quiet : Await → list UserEvent := λ _, [].
Definition cancel_in (a : Await) : Await → list UserEvent :=
  λ b, match a, b with
       | AwaitStart, AwaitStart => [CancelClick]
       | AwaitSettle i, AwaitSettle j => if bool_decide (i = j) then [CancelClick] else []
       | AwaitCanvas i, AwaitCanvas j => if bool_decide (i = j) then [NavEv NextClick; CancelClick] else []
       | AwaitFinalize, AwaitFinalize => [CancelClick]
       | _, _ => []
       end.
Definition demo_page := init pow_stub (Parsed (demo_content (Some "Black"))) blank_page.

(** The spec's [round(p / q)] for a positive [q]: the nearest integer, a tie
    going up, computed on the exact quotient. *)
Definition round_exact (p q : Z) : Z := ((2 * p + q) / (2 * q))%Z.

(** The same with a tie going to the even neighbour. *)
Definition round_exact_even (p q : Z) : Z :=
  let f := (p / q)%Z in
  match (2 * (p - f * q) ?= q)%Z with
  | Lt => f
  | Gt => (f + 1)%Z
  | Eq => if Z.even f then f else (f + 1)%Z
  end.

(** The state [updateUI] leaves when nothing throws. *)
Definition shown (s : Nav) : Nav :=
  {| slideEls := mark_visible (current s) (slideEls s);
     current := current s;
     counter := if counter s is Some _
                then Some (counter_text (current s) (total s)) else None;
     progressFill := if progressFill s is Some _
                     then Some (width_text (current s) (total s)) else None |}.

Definition clamp (n size : Z) : Z := Z.max 0 (Z.min n (size - 1)).

Definition moved (n : Z) (s : Nav) : Nav :=
  shown {| slideEls := slideEls s; current := clamp n (total s);
           counter := counter s; progressFill := progressFill s |}.

(** What stays of a slide element when its classes and inline style change. *)
Definition slide_text (el : SlideEl) : string * string * option string * option string * list ContentNode :=
  (data_index el, h1 el, h2 el, note el, content el).

(** The navigation invariant. *)
Definition nav_ok (s : Nav) : Prop :=
  (0 ≤ current s < total s)%Z ∧ visible_indices s = [Z.to_nat (current s)].

(** One slide deck keeps its slides, whatever their classes. *)
Definition same_slides (s s' : Nav) : Prop :=
  map slide_text (slideEls s') = map slide_text (slideEls s).

(** The width computed by line 375 lies between the first slide's exact
    percentage and 100. *)
Definition pct_in_range (n c : nat) : bool :=
  match pct (Z.of_nat c) (Z.of_nat n) with
  | RInt z => (round_exact 100 (Z.of_nat n) <=? z)%Z && (z <=? 100)%Z
  | _ => false
  end.

(** The width computed by line 375 is the exact quotient, rounded. *)
Definition pct_is_exact (n c : nat) : bool :=
  match pct (Z.of_nat c) (Z.of_nat n) with
  | RInt z => (z =? round_exact (100 * (Z.of_nat c + 1)) (Z.of_nat n))%Z
  | _ => false
  end.

(** Decks of up to a hundred slides, slide by slide: the width is in range
    everywhere and exact except on the listed slides. *)
Definition widths_checked (odd_ones : list (nat * nat)) : bool :=
  forallb (λ n, forallb (λ c, pct_in_range n c
                              && (pct_is_exact n c || bool_decide ((n, c) ∈ odd_ones)))
                        (seq 0 n))
          (seq 1 100).

(** The string entries of a body, in order. *)
Definition strings (items : list BodyItem) : list string :=
  omap (λ it, if it is BStr s then Some s else None) items.

(** The list items and the paragraphs a run of strings gives. *)
Definition bullets (ss : list string) : list string :=
  strip_marker <$> filter (λ s, is_bullet s = true) ss.
Definition paragraphs (ss : list string) : list ContentNode :=
  P <$> filter (λ s, is_bullet s = false) ss.

(** What the script renders: paragraphs up to the first bullet line, then
    one list with every bullet line of the body, then the paragraphs that
    come after the first bullet line. *)
Fixpoint one_list (ss : list string) : list ContentNode :=
  match ss with
  | [] => []
  | s :: r =>
      if is_bullet s then UL (bullets (s :: r)) :: paragraphs r
      else P s :: one_list r
  end.

(** The bullet lines of the body follow each other without a paragraph in
    between. *)
Definition no_bullets (ss : list string) : bool :=
  forallb (λ s, negb (is_bullet s)) ss.
Fixpoint run_then_text (ss : list string) : bool :=
  match ss with
  | [] => true
  | s :: r => if is_bullet s then run_then_text r else no_bullets r
  end.
Fixpoint single_run (ss : list string) : bool :=
  match ss with
  | [] => true
  | s :: r => if is_bullet s then run_then_text r else single_run r
  end.

(** A colour channel as [lum] sees it: a byte divided by 255. *)
Definition channel (k : nat) : float := (Number (Z.of_nat k) / 255)%float.

(** No byte lands on the threshold 0.03928: "at most" and "below" agree on
    every channel, and "at least" is their negation. *)
Definition off_threshold (k : nat) : bool :=
  let v := channel k in
  Bool.eqb (PrimFloat.leb v 0.03928) (PrimFloat.ltb v 0.03928)
  && Bool.eqb (PrimFloat.leb 0.03928 v) (negb (PrimFloat.leb v 0.03928)).

(** Is there a click on the cancel button among the events? *)
Definition is_cancel (ev : UserEvent) : bool :=
  if ev is CancelClick then true else false.
Definition has_cancel (evs : list UserEvent) : bool := existsb is_cancel evs.

(** Does a cancel click arrive while slide [i] is being exported? *)
Definition cancel_at (sched : Await → list UserEvent) (i : nat) : bool :=
  has_cancel (sched (AwaitSettle i)) || has_cancel (sched (AwaitCanvas i)).

(** The texts of the slides on the stage. *)
Definition deck_texts (p : Page) :
    list (string * string * option string * option string * list ContentNode) :=
  map slide_text (slideEls (nav p)).

(** Page by page, the document holds one image, of the slides [cs] in
    order. *)
Definition pages_show (pgs : Pdf)
    (cs : list (string * string * option string * option string * list ContentNode)) : Prop :=
  Forall2 (λ pg c, ∃ im, pg = [im] ∧ slide_text (imgData im) = c) pgs cs.

(** The blank page that follows the last image while more slides remain. *)
Definition open_page (k n : nat) : Pdf := if k <? n then [[]] else [].

(** The first cancel click arrives just before the loop reaches slide [k]:
    during the start-up wait for [k = 0], and otherwise while slide [k-1]
    is being exported, with none before. *)
Definition cancelled_before (sched : Await → list UserEvent) (k : nat) : Prop :=
  match k with
  | 0 => has_cancel (sched AwaitStart) = true
  | S j =>
      has_cancel (sched AwaitStart) = false
      ∧ (∀ i, i < j → cancel_at sched i = false)
      ∧ cancel_at sched j = true
  end.

(** ** The fatal error box (hardened script, lines 208-238) *)

Module Fatal.

Definition quote : string := String "034" EmptyString.

(** The replacement function of line 237 on one character. *)
Definition escape_char (c : ascii) : string :=
  match nat_of_ascii c with
  | 38 => "&amp;"
  | 60 => "&lt;"
  | 62 => "&gt;"
  | 34 => "&quot;"
  | 39 => "&#39;"
  | _ => String c EmptyString
  end.

(** Lines 236-238: every one of the five characters is replaced. *)
Fixpoint escapeHtml (s : string) : string :=
  match s with
  | EmptyString => EmptyString
  | String c r => escape_char c +:+ escapeHtml r
  end.

(** Reading the five entities back, as the HTML parser does with the text
    of the box. *)
Fixpoint unescapeHtml (s : string) : string :=
  match s with
  | String "&" (String "a" (String "m" (String "p" (String ";" r)))) =>
      String "&" (unescapeHtml r)
  | String "&" (String "l" (String "t" (String ";" r))) => String "<" (unescapeHtml r)
  | String "&" (String "g" (String "t" (String ";" r))) => String ">" (unescapeHtml r)
  | String "&" (String "q" (String "u" (String "o" (String "t" (String ";" r))))) =>
      String "034" (unescapeHtml r)
  | String "&" (String "#" (String "3" (String "9" (String ";" r)))) =>
      String "'" (unescapeHtml r)
  | String c r => String c (unescapeHtml r)
  | EmptyString => EmptyString
  end.

(** How often a character occurs in a string. *)
Fixpoint occurs (c : ascii) (s : string) : nat :=
  match s with
  | EmptyString => 0
  | String d r => (if Ascii.eqb c d then 1 else 0) + occurs c r
  end.

(** Is this one of the five characters that [escapeHtml] replaces? *)
Definition special (c : ascii) : bool :=
  let n := nat_of_ascii c in
  (n =? 38) || (n =? 60) || (n =? 62) || (n =? 34) || (n =? 39).

Fixpoint specials (s : string) : nat :=
  match s with
  | EmptyString => 0
  | String c r => (if special c then 1 else 0) + specials r
  end.

(** Lines 226-232: the markup assigned to [box.innerHTML].  [detail] is
    [None] when the caller passed none. *)
Definition fatal_html (message : string) (detail : option string) : string :=
  "
      <div style=" +:+ quote +:+ "font-weight:700;margin-bottom:6px;" +:+ quote
  +:+ ">Deck failed to load</div>
      <div style=" +:+ quote +:+ "opacity:0.9;line-height:1.35;margin-bottom:10px;" +:+ quote
  +:+ ">" +:+ escapeHtml message +:+ "</div>
      <pre style=" +:+ quote
  +:+ "white-space:pre-wrap;word-break:break-word;opacity:0.9;margin:0;padding:10px;border-radius:12px;background:rgba(255,255,255,0.06);max-height:200px;overflow:auto;"
  +:+ quote +:+ ">" +:+ escapeHtml (or_default detail "") +:+ "</pre>
    ".

(** Lines 210-233 on the elements with id [fatalError], in document order,
    each given by its markup: the first one is removed and the new box is
    appended. *)
Definition showFatal_boxes (message : string) (detail : option string)
    (boxes : list string) : list string :=
  tail boxes ++ [fatal_html message detail].

(** One report after the other. *)
Definition report_all (reports : list (string * option string)) (boxes : list string)
    : list string :=
  foldl (λ bs r, showFatal_boxes r.1 r.2 bs) boxes reports.

End Fatal.
Import Fatal.

(** ** Pieces of the first version *)

Module NaiveTheme.

(** Line 31 of the first version, on [document.body.classList]. *)
Definition contrast (aLum : float) (cl : list string) : list string :=
  if PrimFloat.ltb 0.5 aLum then add "light-text" cl else add "dark-text" cl.

End NaiveTheme.

(** The two displays, where the page has them, show the current slide. *)
Definition displays_ok (s : Nav) : Prop :=
  (is_Some (counter s) → counter s = Some (counter_text (current s) (total s)))
  ∧ (is_Some (progressFill s) → progressFill s = Some (width_text (current s) (total s))).

Definition is_list (n : ContentNode) : bool :=
  if n is UL _ then true else false.

(** * Properties *)

(** Case analysis on the integer comparisons of the goal. *)
Ltac case_cmp :=
  repeat match goal with
         | |- context [(?a <? ?b)%Z] => destruct (Z.ltb_spec a b)
         | |- context [(?a <=? ?b)%Z] => destruct (Z.leb_spec a b)
         end.

(** ** Class lists and the visible slide *)

Lemma contains_add tok cl : contains tok (add tok cl) = true.
Proof.
  unfold add. destruct (contains tok cl) eqn:E; [exact E|].
  apply bool_decide_eq_true. apply elem_of_app. right. apply list_elem_of_singleton. reflexivity.
Qed.

Lemma contains_remove tok cl : contains tok (remove tok cl) = false.
Proof.
  apply bool_decide_eq_false. unfold remove. rewrite list_elem_of_filter. intros [Hne _].
  apply Hne. reflexivity.
Qed.

Lemma contains_toggle tok b cl : contains tok (toggle tok b cl) = b.
Proof. destruct b; [apply contains_add | apply contains_remove]. Qed.

Lemma contains_add_ne tok t cl : t ≠ tok → contains t (add tok cl) = contains t cl.
Proof.
  intros Hne. unfold add. destruct (contains tok cl); [reflexivity|].
  unfold contains. apply bool_decide_ext. rewrite elem_of_app, list_elem_of_singleton. tauto.
Qed.

Lemma contains_remove_ne tok t cl : t ≠ tok → contains t (remove tok cl) = contains t cl.
Proof.
  intros Hne. unfold contains, remove. apply bool_decide_ext.
  rewrite list_elem_of_filter. tauto.
Qed.

Lemma contains_toggle_ne tok t b cl : t ≠ tok → contains t (toggle tok b cl) = contains t cl.
Proof. destruct b; [apply contains_add_ne | apply contains_remove_ne]. Qed.

Lemma visible_from_imap (cur : Z) (els : list SlideEl) (k : nat) :
  visible_from k
    (imap (λ i el, with_classes (toggle "visible" (bool_decide (Z.of_nat (k + i) = cur))) el) els)
  = filter (λ j, Z.of_nat j = cur) (seq k (length els)).
Proof.
  revert k. induction els as [|el els IH]; intros k; [reflexivity|].
  cbn [imap visible_from length seq]. unfold is_visible at 1. cbn [classes with_classes].
  rewrite contains_toggle, Nat.add_0_r.
  rewrite filter_cons.
  assert (Hrest : visible_from (S k)
            (imap ((λ i el0, with_classes
                     (toggle "visible" (bool_decide (Z.of_nat (k + i) = cur))) el0) ∘ S) els)
          = filter (λ j, Z.of_nat j = cur) (seq (S k) (length els))).
  { rewrite <- IH. f_equal. apply imap_ext. intros i x _. cbn.
    replace (k + S i) with (S (k + i)) by lia. reflexivity. }
  rewrite Hrest. destruct (decide (Z.of_nat k = cur)) as [Hk|Hk].
  - rewrite bool_decide_eq_true_2 by exact Hk. reflexivity.
  - rewrite bool_decide_eq_false_2 by exact Hk. reflexivity.
Qed.

Lemma filter_seq_none (cur : Z) (k n : nat) :
  ¬ (Z.of_nat k ≤ cur < Z.of_nat (k + n))%Z →
  filter (λ j, Z.of_nat j = cur) (seq k n) = [].
Proof.
  revert k. induction n as [|n IH]; intros k H; [reflexivity|].
  cbn [seq]. rewrite filter_cons_False by lia. apply IH. lia.
Qed.

Lemma filter_seq_one (cur : Z) (k n : nat) :
  (Z.of_nat k ≤ cur < Z.of_nat (k + n))%Z →
  filter (λ j, Z.of_nat j = cur) (seq k n) = [Z.to_nat cur].
Proof.
  revert k. induction n as [|n IH]; intros k H; [lia|].
  cbn [seq]. destruct (decide (Z.of_nat k = cur)) as [Hk|Hk].
  - rewrite filter_cons_True by exact Hk. f_equal; [lia|].
    apply filter_seq_none. lia.
  - rewrite filter_cons_False by exact Hk. apply IH. lia.
Qed.

Lemma visible_mark (cur : Z) (els : list SlideEl) :
  (0 ≤ cur < Z.of_nat (length els))%Z →
  visible_from 0 (mark_visible cur els) = [Z.to_nat cur].
Proof.
  intros H. unfold mark_visible.
  rewrite <- (filter_seq_one cur 0 (length els)) by lia.
  apply (visible_from_imap cur els 0).
Qed.

Lemma length_mark cur els : length (mark_visible cur els) = length els.
Proof. apply length_imap. Qed.

Lemma slide_text_mark cur els :
  map slide_text (mark_visible cur els) = map slide_text els.
Proof.
  unfold mark_visible. apply list_eq. intros i.
  rewrite !list_lookup_fmap, list_lookup_imap.
  destruct (els !! i); reflexivity.
Qed.

(** ** goto and updateUI *)

Lemma total_shown s : total (shown s) = total s.
Proof. unfold total, shown. cbn. rewrite length_mark. reflexivity. Qed.

Lemma total_moved n s : total (moved n s) = total s.
Proof. unfold moved. rewrite total_shown. reflexivity. Qed.

Lemma updateUI_normal s : Hardened.updateUI s = Normal (shown s).
Proof.
  unfold Hardened.updateUI, shown.
  destruct (counter s), (progressFill s); reflexivity.
Qed.

Lemma goto_normal n s :
  Hardened.goto n s = Normal (if (total s =? 0)%Z then s else moved n s).
Proof.
  unfold Hardened.goto. destruct (total s =? 0)%Z eqn:E; [reflexivity|].
  rewrite updateUI_normal. unfold moved. do 2 f_equal.
  apply Z.eqb_neq in E. unfold clamp. f_equal.
  assert (0 ≤ total s)%Z by apply Nat2Z.is_nonneg.
  case_cmp; lia.
Qed.

Lemma moved_ok n s : (1 ≤ total s)%Z → nav_ok (moved n s).
Proof.
  intros H. unfold nav_ok, visible_indices. rewrite total_moved.
  unfold moved. cbn [shown current slideEls total].
  assert (Hc : (0 ≤ clamp n (total s) < total s)%Z) by (unfold clamp; lia).
  split; [exact Hc|]. apply visible_mark. exact Hc.
Qed.

(** C1: for a deck of at least one slide and any integer [n], the hardened
    [goto n] returns normally, the current index becomes
    [max 0 (min n (N - 1))], and exactly the slide at that index carries the
    visible class afterwards. *)
Theorem goto_clamps_and_shows (s : Nav) (n : Z) :
  (1 ≤ total s)%Z →
  ∃ s', Hardened.goto n s = Normal s'
        ∧ current s' = Z.max 0 (Z.min n (total s - 1))
        ∧ total s' = total s
        ∧ visible_indices s' = [Z.to_nat (current s')].
Proof.
  intros H. exists (moved n s). rewrite goto_normal.
  assert (E : (total s =? 0)%Z = false) by (apply Z.eqb_neq; lia).
  rewrite E. destruct (moved_ok n s H) as [_ Hv].
  repeat split; [apply total_moved | exact Hv].
Qed.

Lemma goto_clamps_and_shows_witness :
  ∃ s', Hardened.goto 7 (demo_nav 3) = Normal s'
        ∧ current s' = Z.max 0 (Z.min 7 (total (demo_nav 3) - 1))
        ∧ total s' = total (demo_nav 3)
        ∧ visible_indices s' = [Z.to_nat (current s')].
Proof. apply (goto_clamps_and_shows (demo_nav 3) 7). vm_compute. discriminate. Defined.

(** The first version of [goto] does the same on a page that has both
    displays, and throws when the counter is missing. *)
Lemma naive_goto_normal n s :
  (1 ≤ total s)%Z → is_Some (counter s) → is_Some (progressFill s) →
  Naive.goto n s = Normal (moved n s).
Proof.
  intros H [c Hc] [w Hw]. unfold Naive.goto, Naive.updateUI, moved, shown, clamp.
  cbn [counter progressFill current slideEls total]. fold (total s).
  rewrite Hc, Hw. cbn.
  assert (E : (if (total s <=? (if (n <? 0)%Z then 0%Z else n))%Z then (total s - 1)%Z
               else if (n <? 0)%Z then 0%Z else n) = Z.max 0 (Z.min n (total s - 1))).
  { case_cmp; lia. }
  rewrite E. reflexivity.
Qed.

Lemma naive_goto_throws n s :
  counter s = None → ∃ e, Naive.goto n s = Throw e.
Proof.
  intros Hc. unfold Naive.goto, Naive.updateUI. cbn [counter]. rewrite Hc.
  eexists. reflexivity.
Qed.

(** C10: on a deck of at least one slide whose page has the counter and the
    progress bar, both versions of [goto] return normally with the same
    state: the same index, counter text and progress width. *)
Theorem naive_hardened_goto_agree (s : Nav) (n : Z) :
  (1 ≤ total s)%Z → is_Some (counter s) → is_Some (progressFill s) →
  ∃ s', Naive.goto n s = Normal s' ∧ Hardened.goto n s = Normal s'
        ∧ current s' = Z.max 0 (Z.min n (total s - 1))
        ∧ counter s' = Some (counter_text (current s') (total s))
        ∧ progressFill s' = Some (width_text (current s') (total s)).
Proof.
  intros H Hc Hw. exists (moved n s).
  rewrite naive_goto_normal, goto_normal by assumption.
  assert (E : (total s =? 0)%Z = false) by (apply Z.eqb_neq; lia).
  rewrite E. destruct Hc as [c Hc], Hw as [w Hw].
  unfold moved, shown. cbn. rewrite Hc, Hw. repeat split.
Qed.

Lemma naive_hardened_goto_agree_witness :
  ∃ s', Naive.goto (-2) (demo_nav 3) = Normal s' ∧ Hardened.goto (-2) (demo_nav 3) = Normal s'
        ∧ current s' = Z.max 0 (Z.min (-2) (total (demo_nav 3) - 1))
        ∧ counter s' = Some (counter_text (current s') (total (demo_nav 3)))
        ∧ progressFill s' = Some (width_text (current s') (total (demo_nav 3))).
Proof.
  apply (naive_hardened_goto_agree (demo_nav 3) (-2)).
  - vm_compute. discriminate.
  - exists ""%string. reflexivity.
  - exists ""%string. reflexivity.
Defined.

(** ** Counter and progress width *)

Lemma counter_after_goto n s s' :
  (1 ≤ total s)%Z → is_Some (counter s) → Hardened.goto n s = Normal s' →
  counter s' = Some (pretty (current s' + 1)%Z +:+ " / " +:+ pretty (total s)).
Proof.
  intros H [c Hc]. rewrite goto_normal.
  assert (E : (total s =? 0)%Z = false) by (apply Z.eqb_neq; lia).
  rewrite E. intros [= <-]. unfold moved, shown. cbn. rewrite Hc. reflexivity.
Qed.

Lemma width_after_goto n s s' :
  (1 ≤ total s)%Z → is_Some (progressFill s) → Hardened.goto n s = Normal s' →
  progressFill s' = Some (String_of_rounded (pct (current s') (total s)) +:+ "%").
Proof.
  intros H [c Hc]. rewrite goto_normal.
  assert (E : (total s =? 0)%Z = false) by (apply Z.eqb_neq; lia).
  rewrite E. intros [= <-]. unfold moved, shown. cbn. rewrite Hc. reflexivity.
Qed.

(** Up to a hundred slides the width stays within
    [round(100/N), 100], and it is the rounded exact percentage except on
    slide 23 of 40 and slide 46 of 80. *)
Lemma widths_up_to_100 : widths_checked [(40, 22); (80, 45)] = true.
Proof. vm_compute. reflexivity. Qed.

Lemma width_in_range (n c : nat) :
  1 ≤ n ≤ 100 → c < n →
  ∃ z, pct (Z.of_nat c) (Z.of_nat n) = RInt z
       ∧ (round_exact 100 (Z.of_nat n) ≤ z ≤ 100)%Z.
Proof.
  intros Hn Hc. pose proof widths_up_to_100 as W. unfold widths_checked in W.
  rewrite forallb_forall in W. specialize (W n).
  rewrite forallb_forall in W.
  assert (Hin : In c (seq 0 n)) by (apply in_seq; lia).
  assert (Hin' : In n (seq 1 100)) by (apply in_seq; lia).
  specialize (W Hin' c Hin). apply andb_true_iff in W as [W _].
  unfold pct_in_range in W. destruct (pct (Z.of_nat c) (Z.of_nat n)); try discriminate.
  exists z. split; [reflexivity|]. apply andb_true_iff in W as [W1 W2].
  apply Z.leb_le in W1, W2. lia.
Qed.

(** C4: on a deck of 40 slides, going to slide 23 writes the counter text
    "23 / 40" and the width "57%": the script multiplies the quotient
    23/40 by 100 in binary64, which gives 57.49999999999999, while the exact
    percentage 57.5 rounds to 58. *)
Theorem progress_width_at_23_of_40 :
  ∃ s', Hardened.goto 22 (demo_nav 40) = Normal s'
        ∧ current s' = 22%Z
        ∧ counter s' = Some "23 / 40"
        ∧ progressFill s' = Some "57%"
        ∧ Prim2SF (PrimFloat.mul (PrimFloat.div (Number 23) (Number 40)) 100)
          = S754_finite false 8092405580431359 (-47)
        ∧ (8092405580431359 < 115 * 2 ^ 46)%Z
        ∧ round_exact (100 * (22 + 1)) 40 = 58%Z
        ∧ round_exact_even (100 * (22 + 1)) 40 = 58%Z.
Proof.
  eexists. split; [vm_compute; reflexivity|].
  repeat split; vm_compute; reflexivity.
Qed.

(** ** Start-up and the navigation invariant *)

Lemma same_slides_total s s' : same_slides s s' → total s' = total s.
Proof.
  unfold same_slides, total. intros H. apply (f_equal length) in H.
  rewrite !length_map in H. lia.
Qed.

Lemma same_slides_moved n s : same_slides s (moved n s).
Proof. unfold same_slides, moved, shown. cbn. apply slide_text_mark. Qed.

Lemma on_nav_ok ev s :
  (1 ≤ total s)%Z → nav_ok s →
  ∃ s', on_nav ev s = Normal s' ∧ nav_ok s' ∧ same_slides s s'.
Proof.
  intros H Hok.
  assert (E : (total s =? 0)%Z = false) by (apply Z.eqb_neq; lia).
  assert (G : ∀ n, ∃ s', Hardened.goto n s = Normal s' ∧ nav_ok s' ∧ same_slides s s').
  { intros n. exists (moved n s). rewrite goto_normal, E.
    split; [reflexivity|]. split; [apply moved_ok, H | apply same_slides_moved]. }
  destruct ev as [| |key|n]; cbn [on_nav]; try apply G.
  repeat case_bool_decide; try apply G.
  exists s. repeat split; try apply Hok. 
Qed.

Lemma navigate_ok evs s :
  (1 ≤ total s)%Z → nav_ok s →
  ∃ s', navigate evs s = Normal s' ∧ nav_ok s' ∧ same_slides s s'.
Proof.
  revert s. induction evs as [|ev evs IH]; intros s H Hok.
  - exists s. repeat split; apply Hok.
  - destruct (on_nav_ok ev s H Hok) as (s1 & E1 & Hok1 & Hs1).
    assert (H1 : (1 ≤ total s1)%Z) by (rewrite (same_slides_total _ _ Hs1); exact H).
    destruct (IH s1 H1 Hok1) as (s2 & E2 & Hok2 & Hs2).
    exists s2. cbn [navigate]. rewrite E1. cbn. rewrite E2.
    repeat split; try apply Hok2. unfold same_slides in *. congruence.
Qed.

(** The page after a start-up that reports nothing. *)
Lemma init_succeeded pow content p :
  fatalError (init pow (Parsed content) p) = None →
  ∃ slides, c_slides content = Some slides ∧ slides ≠ []
    ∧ nav (init pow (Parsed content) p)
      = moved 0 {| slideEls := imap HardenedRender.renderSlide slides; current := 0;
                   counter := counter (nav p); progressFill := progressFill (nav p) |}
    ∧ listening (init pow (Parsed content) p) = true.
Proof.
  unfold init. destruct (stage p); cbn [negb]; [|discriminate].
  destruct (c_slides content) as [slides|]; cbn [default length Nat.eqb]; [|discriminate].
  destruct slides as [|sl slides]; cbn [length Nat.eqb]; [discriminate|].
  destruct (lum pow (accent_of (resolve (c_theme content)))) as [aLum|e]; [|discriminate].
  rewrite goto_normal. cbn [refreshCompact set_bodyClasses set_nav set_accentVars nav].
  match goal with |- context [(total ?x =? 0)%Z] => 
    assert (E : (total x =? 0)%Z = false) by (apply Z.eqb_neq; unfold total; cbn; lia) end.
  rewrite E. cbn. intros _. exists (sl :: slides). repeat split. discriminate.
Qed.

(** C3: when the start-up of a deck with at least one slide has run without
    a fatal report, exactly one slide element is visible and it is the
    first; after any sequence of navigation events exactly one slide element
    is visible, it is the current one, and the current index lies in
    [0, N). *)
Theorem init_then_navigate_invariant pow content slides p evs :
  c_slides content = Some slides → 1 ≤ length slides →
  fatalError (init pow (Parsed content) p) = None →
  let s0 := nav (init pow (Parsed content) p) in
  length (slideEls s0) = length slides
  ∧ current s0 = 0%Z
  ∧ visible_indices s0 = [0]
  ∧ ∃ s', navigate evs s0 = Normal s'
          ∧ length (slideEls s') = length slides
          ∧ (0 ≤ current s' < Z.of_nat (length slides))%Z
          ∧ visible_indices s' = [Z.to_nat (current s')].
Proof.
  intros Hs Hn Hf s0. destruct (init_succeeded pow content p Hf) as (sl & Hsl & _ & Hnav & _).
  assert (sl = slides) by congruence. subst sl. subst s0. rewrite Hnav.
  set (s := {| slideEls := imap HardenedRender.renderSlide slides; current := 0;
               counter := counter (nav p); progressFill := progressFill (nav p) |}).
  assert (Ht : total s = Z.of_nat (length slides)).
  { unfold total, s. cbn. rewrite length_imap. reflexivity. }
  assert (H1 : (1 ≤ total s)%Z) by lia.
  pose proof (moved_ok 0 s H1) as Hok.
  pose proof (total_moved 0 s) as Htm.
  assert (Hcur : current (moved 0 s) = 0%Z).
  { unfold moved, shown, clamp. cbn. lia. }
  split; [unfold total in Htm, Ht; lia|].
  split; [exact Hcur|].
  split; [destruct Hok as [_ Hv]; rewrite Hv, Hcur; reflexivity|].
  destruct (navigate_ok evs (moved 0 s)) as (s' & E & [Hr Hv] & Hsame); [lia|exact Hok|].
  exists s'. split; [exact E|].
  pose proof (same_slides_total _ _ Hsame) as Ht'.
  split; [unfold total in Ht', Htm, Ht; lia|]. split; [lia|exact Hv].
Qed.

Lemma init_succeeds pow content slides t p :
  stage p = true → fatalError p = None →
  c_slides content = Some slides → slides ≠ [] →
  resolve (c_theme content) = Own t →
  fatalError (init pow (Parsed content) p) = None.
Proof.
  intros Hst Hf Hs Hne Ht. unfold init. rewrite Hst, Hs, Ht. cbn [negb default].
  destruct slides as [|sl slides]; [congruence|]. cbn [length Nat.eqb].
  unfold lum, hexToRgb. cbn [accent_of mbind completion_bind mret completion_ret].
  rewrite goto_normal. cbn [refreshCompact set_bodyClasses set_nav set_accentVars nav].
  match goal with |- context [(total ?x =? 0)%Z] =>
    assert (E : (total x =? 0)%Z = false) by (apply Z.eqb_neq; unfold total; cbn; lia) end.
  rewrite E. cbn. exact Hf.
Qed.

Lemma init_then_navigate_invariant_witness :
  let pg := init pow_stub (Parsed (demo_content (Some "Black"))) blank_page in
  length (slideEls (nav pg)) = 3
  ∧ current (nav pg) = 0%Z
  ∧ visible_indices (nav pg) = [0]
  ∧ ∃ s', navigate [NextClick; KeyDown "ArrowLeft"; GotoSlide 9; KeyDown " "] (nav pg) = Normal s'
          ∧ length (slideEls s') = 3
          ∧ (0 ≤ current s' < Z.of_nat 3)%Z
          ∧ visible_indices s' = [Z.to_nat (current s')].
Proof.
  apply (init_then_navigate_invariant pow_stub (demo_content (Some "Black"))
           [mkSlide (Some "One") None None (Some demo_body);
            mkSlide (Some "Two") (Some "sub") None None;
            mkSlide None None (Some "n") (Some split_body)]
           blank_page
           [NextClick; KeyDown "ArrowLeft"; GotoSlide 9; KeyDown " "]).
  - reflexivity.
  - simpl. lia.
  - vm_compute. reflexivity.
Defined.

(** C5: when content.json parses but has no slide list, or an empty one, the
    start-up shows the fatal box with the "0 slides" message and stops: the
    stage keeps the children it had, no handler is attached and nothing
    else on the page changes. *)
Theorem empty_deck_is_fatal pow content p :
  stage p = true →
  c_slides content = None ∨ c_slides content = Some [] →
  let p' := init pow (Parsed content) p in
  fatalError p'
  = Some (mkFatal "content.json loaded, but contains 0 slides. Expected: { slides: [ ... ] }"
            (JsonOf content))
  ∧ slideEls (nav p') = slideEls (nav p)
  ∧ listening p' = listening p
  ∧ p' = set_fatalError (fatalError p') p.
Proof.
  intros Hst Hs p'. subst p'. unfold init. rewrite Hst. cbn [negb].
  destruct Hs as [-> | ->]; cbn; repeat split.
Qed.

Lemma empty_deck_is_fatal_witness :
  let p' := init pow_stub (Parsed (mkContent (Some "Deck") None (Some []))) blank_page in
  fatalError p'
  = Some (mkFatal "content.json loaded, but contains 0 slides. Expected: { slides: [ ... ] }"
            (JsonOf (mkContent (Some "Deck") None (Some []))))
  ∧ slideEls (nav p') = slideEls (nav blank_page)
  ∧ listening p' = listening blank_page
  ∧ p' = set_fatalError (fatalError p') blank_page.
Proof.
  apply (empty_deck_is_fatal pow_stub (mkContent (Some "Deck") None (Some [])) blank_page).
  - reflexivity.
  - right. reflexivity.
Defined.

(** ** Slide bodies *)

Lemma alter_middle {A} (f : A → A) (k1 : list A) (x : A) (k2 : list A) :
  alter f (length k1) (k1 ++ x :: k2) = k1 ++ f x :: k2.
Proof. induction k1 as [|y k1 IH]; [reflexivity|]. cbn. f_equal. exact IH. Qed.

Lemma strings_str s items : strings (BStr s :: items) = s :: strings items.
Proof. reflexivity. Qed.

Lemma strings_other items : strings (BOther :: items) = strings items.
Proof. reflexivity. Qed.

Lemma bullets_cons_true s r : is_bullet s = true → bullets (s :: r) = strip_marker s :: bullets r.
Proof. intros H. unfold bullets. rewrite filter_cons_True by exact H. reflexivity. Qed.

Lemma bullets_cons_false s r : is_bullet s = false → bullets (s :: r) = bullets r.
Proof.
  intros H. unfold bullets. rewrite filter_cons_False; [reflexivity|]. rewrite H. discriminate.
Qed.

Lemma paragraphs_cons_true s r : is_bullet s = true → paragraphs (s :: r) = paragraphs r.
Proof.
  intros H. unfold paragraphs. rewrite filter_cons_False; [reflexivity|]. rewrite H. discriminate.
Qed.

Lemma paragraphs_cons_false s r : is_bullet s = false → paragraphs (s :: r) = P s :: paragraphs r.
Proof. intros H. unfold paragraphs. rewrite filter_cons_True by exact H. reflexivity. Qed.

(** Once the variable [ul] points to a list, that list takes every later
    bullet line and the paragraphs pile up behind it. *)
Lemma hardened_fold_open items : ∀ k1 bs k2,
  (foldl HardenedRender.body_item (k1 ++ UL bs :: k2, Some (length k1)) items).1
  = k1 ++ UL (bs ++ bullets (strings items)) :: k2 ++ paragraphs (strings items).
Proof.
  induction items as [|[s|] items IH]; intros k1 bs k2.
  - cbn. rewrite !app_nil_r. reflexivity.
  - rewrite strings_str. cbn [foldl HardenedRender.body_item fst snd]. destruct (is_bullet s) eqn:Hb.
    + rewrite alter_middle. cbn [append_li]. rewrite IH, bullets_cons_true, paragraphs_cons_true by exact Hb.
      rewrite <- app_assoc. reflexivity.
    + replace ((k1 ++ UL bs :: k2) ++ [P s]) with (k1 ++ UL bs :: (k2 ++ [P s]))
        by (rewrite <- app_assoc; reflexivity).
      rewrite IH, bullets_cons_false, paragraphs_cons_false by exact Hb.
      rewrite <- app_assoc. reflexivity.
  - rewrite strings_other. cbn [foldl HardenedRender.body_item]. apply IH.
Qed.

Lemma hardened_fold_closed items : ∀ kids,
  (foldl HardenedRender.body_item (kids, None) items).1 = kids ++ one_list (strings items).
Proof.
  induction items as [|[s|] items IH]; intros kids.
  - cbn. rewrite app_nil_r. reflexivity.
  - rewrite strings_str. cbn [foldl HardenedRender.body_item fst snd one_list]. destruct (is_bullet s) eqn:Hb.
    + rewrite alter_middle. cbn [append_li app].
      rewrite (hardened_fold_open items kids [strip_marker s] []).
      rewrite bullets_cons_true by exact Hb. reflexivity.
    + rewrite IH. rewrite <- app_assoc. reflexivity.
  - rewrite strings_other. cbn [foldl HardenedRender.body_item]. apply IH.
Qed.

Lemma hardened_renderBody items :
  HardenedRender.renderBody items = one_list (strings items).
Proof. unfold HardenedRender.renderBody. apply (hardened_fold_closed items []). Qed.

Lemma querySelector_ul_pars ps rest :
  querySelector_ul ((P <$> ps) ++ rest) = (λ i, length ps + i) <$> querySelector_ul rest.
Proof.
  induction ps as [|p ps IH]; cbn.
  - destruct (querySelector_ul rest); reflexivity.
  - rewrite IH. destruct (querySelector_ul rest); reflexivity.
Qed.

Lemma naive_fold_open items : ∀ ps bs k2,
  foldl NaiveRender.body_item ((P <$> ps) ++ UL bs :: k2) items
  = (P <$> ps) ++ UL (bs ++ bullets (strings items)) :: k2 ++ paragraphs (strings items).
Proof.
  induction items as [|[s|] items IH]; intros ps bs k2.
  - cbn. rewrite !app_nil_r. reflexivity.
  - rewrite strings_str. cbn [foldl NaiveRender.body_item]. destruct (is_bullet s) eqn:Hb.
    + rewrite querySelector_ul_pars. cbn [querySelector_ul fmap option_fmap option_map].
      rewrite Nat.add_0_r.
      replace (length ps) with (length (P <$> ps)) by apply length_fmap.
      rewrite alter_middle. cbn [append_li].
      rewrite IH, bullets_cons_true, paragraphs_cons_true by exact Hb.
      rewrite <- app_assoc. reflexivity.
    + replace (((P <$> ps) ++ UL bs :: k2) ++ [P s]) with ((P <$> ps) ++ UL bs :: (k2 ++ [P s]))
        by (rewrite <- app_assoc; reflexivity).
      rewrite IH, bullets_cons_false, paragraphs_cons_false by exact Hb.
      rewrite <- app_assoc. reflexivity.
  - rewrite strings_other. cbn [foldl NaiveRender.body_item]. apply IH.
Qed.

Lemma naive_fold_closed items : ∀ ps,
  foldl NaiveRender.body_item (P <$> ps) items = (P <$> ps) ++ one_list (strings items).
Proof.
  induction items as [|[s|] items IH]; intros ps.
  - cbn. rewrite app_nil_r. reflexivity.
  - rewrite strings_str. cbn [foldl NaiveRender.body_item one_list]. destruct (is_bullet s) eqn:Hb.
    + pose proof (querySelector_ul_pars ps []) as Hq. rewrite app_nil_r in Hq.
      rewrite Hq. cbn [querySelector_ul fmap option_fmap option_map].
      rewrite alter_middle. cbn [append_li app].
      rewrite (naive_fold_open items ps [strip_marker s] []).
      rewrite bullets_cons_true by exact Hb. reflexivity.
    + replace ((P <$> ps) ++ [P s]) with (P <$> (ps ++ [s])) by (rewrite fmap_app; reflexivity).
      rewrite IH, fmap_app, <- app_assoc. reflexivity.
  - rewrite strings_other. cbn [foldl NaiveRender.body_item]. apply IH.
Qed.

Lemma naive_renderBody items :
  NaiveRender.renderBody items = one_list (strings items).
Proof. unfold NaiveRender.renderBody. apply (naive_fold_closed items []). Qed.

Lemma no_bullets_cons s r :
  no_bullets (s :: r) = true → is_bullet s = false ∧ no_bullets r = true.
Proof.
  unfold no_bullets. cbn [forallb]. intros H. apply andb_true_iff in H as [H1 H2].
  split; [destruct (is_bullet s); [discriminate|reflexivity] | exact H2].
Qed.

Lemma no_bullets_split ss :
  no_bullets ss = true → bullets ss = [] ∧ paragraphs ss = P <$> ss.
Proof.
  induction ss as [|s r IH]; intros H; [split; reflexivity|].
  apply no_bullets_cons in H as [Hs Hr]. destruct (IH Hr) as [Hb Hp].
  rewrite bullets_cons_false, paragraphs_cons_false by exact Hs.
  rewrite Hb, Hp. split; reflexivity.
Qed.

Lemma spec_text items : ∀ open kids,
  no_bullets (strings items) = true →
  renderBody_spec_go open kids items = kids ++ (P <$> strings items).
Proof.
  induction items as [|[s|] items IH]; intros open kids H.
  - cbn. rewrite app_nil_r. reflexivity.
  - rewrite strings_str in *. apply no_bullets_cons in H as [Hs Hr].
    cbn [renderBody_spec_go]. rewrite Hs, IH by exact Hr.
    rewrite <- app_assoc. reflexivity.
  - rewrite strings_other in *. cbn [renderBody_spec_go]. apply IH, H.
Qed.

Lemma spec_run items : ∀ k1 bs,
  run_then_text (strings items) = true →
  renderBody_spec_go true (k1 ++ [UL bs]) items
  = k1 ++ UL (bs ++ bullets (strings items)) :: paragraphs (strings items).
Proof.
  induction items as [|[s|] items IH]; intros k1 bs H.
  - cbn. rewrite app_nil_r. reflexivity.
  - rewrite strings_str in *. cbn [renderBody_spec_go run_then_text] in *.
    destruct (is_bullet s) eqn:Hb.
    + replace (length (k1 ++ [UL bs]) - 1) with (length k1)
        by (rewrite length_app; cbn; lia).
      rewrite alter_middle. cbn [append_li].
      rewrite IH, bullets_cons_true, paragraphs_cons_true by assumption.
      rewrite <- app_assoc. reflexivity.
    + rewrite spec_text by exact H. destruct (no_bullets_split _ H) as [Hn Hp].
      rewrite bullets_cons_false, paragraphs_cons_false by exact Hb.
      rewrite Hn, Hp, app_nil_r, <- !app_assoc. reflexivity.
  - rewrite strings_other in *. cbn [renderBody_spec_go]. apply IH, H.
Qed.

Lemma spec_single items : ∀ kids,
  single_run (strings items) = true →
  renderBody_spec_go false kids items = kids ++ one_list (strings items).
Proof.
  induction items as [|[s|] items IH]; intros kids H.
  - cbn. rewrite app_nil_r. reflexivity.
  - rewrite strings_str in *. cbn [renderBody_spec_go single_run one_list] in *.
    destruct (is_bullet s) eqn:Hb.
    + rewrite (spec_run items kids [strip_marker s]) by exact H.
      rewrite bullets_cons_true by exact Hb. reflexivity.
    + rewrite IH by exact H. rewrite <- app_assoc. reflexivity.
  - rewrite strings_other in *. cbn [renderBody_spec_go]. apply IH, H.
Qed.

(** For a bullet line the regular expression matches at the very start, so
    exactly the marker and the blank after it are removed. *)
Lemma strip_marker_bullet par :
  is_bullet par = true →
  ("• " +:+ strip_marker par = par) ∨ ("- " +:+ strip_marker par = par).
Proof.
  unfold is_bullet, startsWith, strip_marker. intros H.
  apply orb_true_iff in H as [H|H].
  - left. destruct par as [|a [|b [|c [|d r]]]]; cbn in H;
      repeat match type of H with
             | (if ?d then _ else _) = true => destruct d; [subst|]
             end; try discriminate.
    reflexivity.
  - right. destruct par as [|a [|b r]]; cbn in H;
      repeat match type of H with
             | (if ?d then _ else _) = true => destruct d; [subst|]
             end; try discriminate.
    reflexivity.
Qed.

(** C2, as the script does it: in both versions every bullet line of a body
    goes, in body order, into one single list that stands where the first
    bullet line stood, and the other strings become paragraphs in body
    order; a later run of bullet lines gets no list of its own.  When the
    bullet lines of a body follow each other without a paragraph in between,
    this is the rendering in body order with the run coalesced. *)
Theorem body_renders_one_list (items : list BodyItem) :
  HardenedRender.renderBody items = one_list (strings items)
  ∧ NaiveRender.renderBody items = one_list (strings items)
  ∧ (single_run (strings items) = true →
     HardenedRender.renderBody items = renderBody_spec items
     ∧ NaiveRender.renderBody items = renderBody_spec items).
Proof.
  split; [apply hardened_renderBody|]. split; [apply naive_renderBody|].
  intros H. rewrite hardened_renderBody, naive_renderBody.
  unfold renderBody_spec. rewrite (spec_single items [] H). split; reflexivity.
Qed.

Lemma body_renders_one_list_witness :
  HardenedRender.renderBody demo_body = renderBody_spec demo_body
  ∧ NaiveRender.renderBody demo_body = renderBody_spec demo_body.
Proof. exact (proj2 (proj2 (body_renders_one_list demo_body)) eq_refl). Defined.

(** C2 as stated fails on the body ["• a", "x", "- b"]: the second bullet
    line joins the first list, ahead of the paragraph. *)
Lemma second_bullet_run_joins_first_list :
  HardenedRender.renderBody split_body = [UL ["a"; "b"]; P "x"]
  ∧ NaiveRender.renderBody split_body = [UL ["a"; "b"]; P "x"]
  ∧ renderBody_spec split_body = [UL ["a"]; P "x"; UL ["b"]]
  ∧ HardenedRender.renderBody split_body ≠ renderBody_spec split_body.
Proof. repeat split; try reflexivity. vm_compute. discriminate. Qed.

(** ** Luminance and the contrast class *)

Lemma SFcompare_antisym a b : SFcompare b a = CompOpp <$> SFcompare a b.
Proof.
  destruct a as [s|s| |s m e], b as [s'|s'| |s' m' e']; cbn [SFcompare fmap option_fmap option_map];
    try reflexivity; try (destruct s; reflexivity); try (destruct s'; reflexivity);
    try (destruct s, s'; reflexivity).
  destruct s, s'; try reflexivity.
  - rewrite (Z.compare_antisym e e'). destruct (e ?= e')%Z; cbn [CompOpp]; try reflexivity.
    rewrite (Pos.compare_cont_antisym m m' Eq). reflexivity.
  - rewrite (Z.compare_antisym e e'). destruct (e ?= e')%Z; cbn [CompOpp]; try reflexivity.
    rewrite (Pos.compare_cont_antisym m m' Eq). cbn [CompOpp]. reflexivity.
Qed.

Lemma SFcompare_None a b : SFcompare a b = None → a = S754_nan ∨ b = S754_nan.
Proof.
  destruct a as [s|s| |s m e], b as [s'|s'| |s' m' e']; cbn [SFcompare];
    intros H; try discriminate; auto.
Qed.

Lemma is_nan_spec x : PrimFloat.is_nan x = false → Prim2SF x ≠ S754_nan.
Proof.
  unfold PrimFloat.is_nan. rewrite FloatAxioms.eqb_spec. intros H E. rewrite E in H.
  discriminate.
Qed.

(** On numbers, [y < x] is the negation of [x <= y]. *)
Lemma ltb_negb_leb (x y : float) :
  PrimFloat.is_nan x = false → PrimFloat.is_nan y = false →
  PrimFloat.ltb y x = negb (PrimFloat.leb x y).
Proof.
  intros Hx Hy. rewrite FloatAxioms.ltb_spec, FloatAxioms.leb_spec.
  unfold SFltb, SFleb. rewrite (SFcompare_antisym (Prim2SF x) (Prim2SF y)).
  destruct (SFcompare (Prim2SF x) (Prim2SF y)) as [[]|] eqn:E; try reflexivity.
  apply SFcompare_None in E as [E|E]; [apply is_nan_spec in Hx | apply is_nan_spec in Hy]; contradiction.
Qed.

Lemma bytes_off_threshold : forallb off_threshold (seq 0 256) = true.
Proof. vm_compute. reflexivity. Qed.

Lemma contrast_light aLum cl :
  contains "light-text" (contrast aLum cl) = PrimFloat.ltb 0.5 aLum.
Proof.
  unfold contrast. rewrite contains_toggle_ne by discriminate. apply contains_toggle.
Qed.

Lemma contrast_dark aLum cl :
  contains "dark-text" (contrast aLum cl) = PrimFloat.leb aLum 0.5.
Proof. unfold contrast. apply contains_toggle. Qed.

Section Contrast.
Variable Math_pow : float → float → float.
Hypothesis pow_one : Math_pow 1 2.4 = 1%float.

(** C8: on every channel value (a byte over 255) [lum] takes [v / 12.92]
    below the threshold 0.03928 and [((v + 0.055) / 1.055) ^ 2.4] at or
    above it, and returns [0.2126 R + 0.7152 G + 0.0722 B]; white has
    luminance 1 and gets the light-text class, black has luminance 0 and
    gets the dark-text class; for every luminance that is a number exactly
    one of the two classes is on the body afterwards, light-text when the
    luminance exceeds 0.5. *)
Theorem luminance_and_contrast_class :
  (∀ k, k ≤ 255 →
     (PrimFloat.ltb (channel k) 0.03928 = true →
      linear Math_pow (channel k) = (channel k / 12.92)%float)
     ∧ (PrimFloat.leb 0.03928 (channel k) = true →
        linear Math_pow (channel k)
        = Math_pow ((channel k + 0.055) / 1.055)%float 2.4%float))
  ∧ (∀ hex r g b, hexToRgb (Some hex) = Normal (r, g, b) →
       lum Math_pow (Some hex)
       = Normal (0.2126 * linear Math_pow (r / 255)
                 + 0.7152 * linear Math_pow (g / 255)
                 + 0.0722 * linear Math_pow (b / 255))%float)
  ∧ (lum Math_pow (Some "#ffffff") = Normal 1%float
     ∧ ∀ cl, contains "light-text" (contrast 1 cl) = true
             ∧ contains "dark-text" (contrast 1 cl) = false)
  ∧ (lum Math_pow (Some "#000000") = Normal 0%float
     ∧ ∀ cl, contains "light-text" (contrast 0 cl) = false
             ∧ contains "dark-text" (contrast 0 cl) = true)
  ∧ (∀ aLum cl, PrimFloat.is_nan aLum = false →
       contains "light-text" (contrast aLum cl) = PrimFloat.ltb 0.5 aLum
       ∧ contains "dark-text" (contrast aLum cl)
         = negb (contains "light-text" (contrast aLum cl))).
Proof.
  split; [|split; [|split; [|split]]].
  - intros k Hk. pose proof bytes_off_threshold as B.
    rewrite forallb_forall in B.
    assert (Hin : In k (seq 0 256)) by (apply in_seq; lia).
    specialize (B k Hin). unfold off_threshold in B.
    apply andb_true_iff in B as [B1 B2].
    apply Bool.eqb_prop in B1, B2. unfold linear. split; intros H.
    + rewrite B1, H. reflexivity.
    + rewrite H in B2. destruct (PrimFloat.leb (channel k) 0.03928); [discriminate|reflexivity].
  - intros hex r g b H. unfold lum. rewrite H. reflexivity.
  - split.
    + vm_compute. rewrite pow_one. vm_compute. reflexivity.
    + intros cl. rewrite contrast_light, contrast_dark. split; vm_compute; reflexivity.
  - split.
    + vm_compute. reflexivity.
    + intros cl. rewrite contrast_light, contrast_dark. split; vm_compute; reflexivity.
  - intros aLum cl Hn. rewrite contrast_light, contrast_dark. split; [reflexivity|].
    rewrite (ltb_negb_leb aLum 0.5 Hn) by (vm_compute; reflexivity).
    rewrite Bool.negb_involutive. reflexivity.
Qed.
End Contrast.

Lemma luminance_and_contrast_class_witness :
  lum pow_stub (Some "#ffffff") = Normal 1%float
  ∧ linear pow_stub (channel 10) = (channel 10 / 12.92)%float
  ∧ contains "dark-text" (contrast 0.25 ["deck"])
    = negb (contains "light-text" (contrast 0.25 ["deck"])).
Proof.
  assert (P1 : pow_stub 1 2.4 = 1%float) by (vm_compute; reflexivity).
  pose proof (luminance_and_contrast_class pow_stub P1) as (Hk & _ & [Hw _] & _ & Hc).
  split; [exact Hw|]. split.
  - apply (Hk 10); [lia | vm_compute; reflexivity].
  - apply (Hc 0.25%float ["deck"]). vm_compute. reflexivity.
Defined.

(** ** Theme resolution *)

Lemma lower_ascii_idem c : lower_ascii (lower_ascii c) = lower_ascii c.
Proof. destruct c as [[] [] [] [] [] [] [] []]; reflexivity. Qed.

Lemma toLowerCase_idem s : toLowerCase (toLowerCase s) = toLowerCase s.
Proof.
  induction s as [|c s IH]; [reflexivity|]. cbn. rewrite lower_ascii_idem, IH. reflexivity.
Qed.

Lemma toLowerCase_empty s : toLowerCase s = "" → s = "".
Proof. destruct s; [reflexivity|discriminate]. Qed.

(** Of the names on [Object.prototype] only two are all lower case, so only
    these can come out of [toLowerCase]. *)
Lemma lowered_inherited s :
  toLowerCase s ∈ Object_prototype →
  toLowerCase s = "constructor" ∨ toLowerCase s = "__proto__".
Proof.
  intros H. pose proof (toLowerCase_idem s) as I.
  unfold Object_prototype in H.
  repeat (apply elem_of_cons in H as [H|H];
          [first [left; exact H | right; exact H | rewrite H in I; vm_compute in I; discriminate]|]).
  apply elem_of_nil in H. contradiction.
Qed.

(** X25: the theme name decides the outcome through its lower-case form
    only: a name and its lower-case spelling resolve alike. *)
Lemma resolve_ignores_case name :
  resolve (Some (toLowerCase name)) = resolve (Some name).
Proof.
  unfold resolve, or_default. destruct name as [|c r]; [reflexivity|].
  cbn [toLowerCase]. rewrite !bool_decide_eq_false_2 by discriminate.
  change (String (lower_ascii c) (toLowerCase r)) with (toLowerCase (String c r)).
  rewrite toLowerCase_idem. reflexivity.
Qed.

Lemma resolve_absent : resolve None = Own pink ∧ resolve (Some "") = Own pink.
Proof. split; vm_compute; reflexivity. Qed.

(** A name that is neither a theme nor, in lower case, [constructor] or
    [__proto__] gives the pink theme. *)
Lemma resolve_unknown name :
  themeMap !! toLowerCase name = None →
  toLowerCase name ≠ "constructor" → toLowerCase name ≠ "__proto__" →
  resolve (Some name) = Own pink.
Proof.
  intros Hm Hc Hp. destruct name as [|c r]; [vm_compute; reflexivity|].
  unfold resolve, or_default. rewrite bool_decide_eq_false_2 by discriminate.
  unfold get. rewrite Hm.
  rewrite bool_decide_eq_false_2; [reflexivity|].
  intros Hin. apply lowered_inherited in Hin as [Hin|Hin]; contradiction.
Qed.

(** C9 at the theme name "constructor" (in any case): the lookup finds
    [Object.prototype.constructor], no fallback takes place, [theme.accent]
    is [undefined], [lum] throws inside [hexToRgb], and the start-up ends in
    the fatal box without rendering a slide. *)
Theorem theme_constructor_is_not_default pow content slides p :
  stage p = true → c_slides content = Some slides → slides ≠ [] →
  toLowerCase (or_default (c_theme content) "pink") = "constructor" →
  resolve (c_theme content) = Inherited "constructor"
  ∧ accent_of (resolve (c_theme content)) = None
  ∧ fatalError (init pow (Parsed content) p)
    = Some (mkFatal "Unexpected error in app.js."
              (Text "TypeError: Cannot read properties of undefined (reading 'replace')"))
  ∧ slideEls (nav (init pow (Parsed content) p)) = slideEls (nav p)
  ∧ listening (init pow (Parsed content) p) = listening p.
Proof.
  intros Hst Hs Hne Hk.
  assert (Hr : resolve (c_theme content) = Inherited "constructor").
  { unfold resolve. rewrite Hk. vm_compute. reflexivity. }
  split; [exact Hr|]. split; [rewrite Hr; reflexivity|].
  unfold init. rewrite Hst, Hs, Hr. cbn [negb default].
  destruct slides as [|sl slides]; [congruence|]. cbn. repeat split.
Qed.

Lemma theme_constructor_is_not_default_witness :
  resolve (Some "Constructor") = Inherited "constructor"
  ∧ accent_of (resolve (Some "Constructor")) = None
  ∧ fatalError (init pow_stub (Parsed (demo_content (Some "Constructor"))) blank_page)
    = Some (mkFatal "Unexpected error in app.js."
              (Text "TypeError: Cannot read properties of undefined (reading 'replace')"))
  ∧ slideEls (nav (init pow_stub (Parsed (demo_content (Some "Constructor"))) blank_page))
    = slideEls (nav blank_page)
  ∧ listening (init pow_stub (Parsed (demo_content (Some "Constructor"))) blank_page)
    = listening blank_page.
Proof.
  apply (theme_constructor_is_not_default pow_stub (demo_content (Some "Constructor"))
           [mkSlide (Some "One") None None (Some demo_body);
            mkSlide (Some "Two") (Some "sub") None None;
            mkSlide None None (Some "n") (Some split_body)] blank_page).
  - reflexivity.
  - reflexivity.
  - discriminate.
  - vm_compute. reflexivity.
Defined.

(** ** Export *)

Lemma goto_same n s : ∃ s', Hardened.goto n s = Normal s' ∧ same_slides s s'.
Proof.
  rewrite goto_normal. destruct (total s =? 0)%Z.
  - exists s. split; reflexivity.
  - exists (moved n s). split; [reflexivity | apply same_slides_moved].
Qed.

Lemma on_nav_same ev s : ∃ s', on_nav ev s = Normal s' ∧ same_slides s s'.
Proof.
  destruct ev as [| |key|n]; cbn [on_nav]; try apply goto_same.
  repeat case_bool_decide; try apply goto_same.
  exists s. split; reflexivity.
Qed.

(** The handlers that run during a suspension keep the slides, leave the
    status line alone, and raise the flag exactly when a cancel click is
    among the events. *)
Lemma deliver_spec evs : ∀ p,
  ∃ p', deliver evs p = Normal p'
        ∧ deck_texts p' = deck_texts p
        ∧ cancelRequested p' = cancelRequested p || has_cancel evs
        ∧ exportStatus p' = exportStatus p.
Proof.
  induction evs as [|ev evs IH]; intros p.
  - exists p. cbn. rewrite orb_false_r. repeat split.
  - destruct ev as [|e].
    + destruct (IH (cancelClick p)) as (p' & E & T & C & S).
      exists p'. cbn [deliver on_user mbind completion_bind]. rewrite E.
      split; [reflexivity|]. split; [exact T|]. split; [|exact S].
      rewrite C. cbn. rewrite orb_true_r. reflexivity.
    + destruct (on_nav_same e (nav p)) as (n & En & Hn).
      destruct (IH (set_nav n p)) as (p' & E & T & C & S).
      exists p'. cbn [deliver on_user mbind completion_bind mret completion_ret].
      rewrite En. cbn [mbind completion_bind mret completion_ret]. rewrite E.
      split; [reflexivity|]. split; [rewrite T; exact Hn|]. split; [|exact S].
      rewrite C. reflexivity.
Qed.

Lemma open_page_lt k n : k < n → open_page k n = [[]].
Proof. intros H. unfold open_page. rewrite (proj2 (Nat.ltb_lt k n)) by exact H. reflexivity. Qed.

Lemma open_page_ge k n : n ≤ k → open_page k n = [].
Proof. intros H. unfold open_page. rewrite (proj2 (Nat.ltb_ge k n)) by exact H. reflexivity. Qed.

Section ExportProofs.
Variable sched : Await → list UserEvent.
Variable canvas_size : SlideEl → float * float.
Variables pageW pageH : float.

(** Once the flag is up the loop does nothing more. *)
Lemma export_loop_cancelled idxs st :
  cancelRequested st.1 = true → export_loop sched canvas_size pageW pageH idxs st = Normal st.
Proof. intros H. destruct idxs; cbn [export_loop]; [|rewrite H]; reflexivity. Qed.

Lemma export_loop_app l1 : ∀ l2 st,
  export_loop sched canvas_size pageW pageH (l1 ++ l2) st = st' ← export_loop sched canvas_size pageW pageH l1 st; export_loop sched canvas_size pageW pageH l2 st'.
Proof.
  induction l1 as [|i l1 IH]; intros l2 st; [reflexivity|].
  cbn [app export_loop]. destruct (cancelRequested st.1) eqn:Hc.
  - cbn [mbind completion_bind]. symmetry. apply export_loop_cancelled, Hc.
  - destruct (Hardened.goto (Z.of_nat i) (nav st.1)) as [n|e]; cbn [mbind completion_bind]; [|reflexivity].
    match goal with |- context [deliver (sched (AwaitSettle i)) ?q] =>
      destruct (deliver (sched (AwaitSettle i)) q) as [p1|e] end;
      cbn [mbind completion_bind]; [|reflexivity].
    destruct (slideEls (nav p1) !! i) as [el|]; cbn [mbind completion_bind]; [|reflexivity].
    destruct (deliver (sched (AwaitCanvas i)) p1) as [p2|e]; cbn [mbind completion_bind]; [|reflexivity].
    apply IH.
Qed.

Lemma export_loop_cons i rest st :
  export_loop sched canvas_size pageW pageH (i :: rest) st
  = st' ← export_loop sched canvas_size pageW pageH [i] st;
    export_loop sched canvas_size pageW pageH rest st'.
Proof. exact (export_loop_app [i] rest st). Qed.

(** One iteration on a page whose flag is down. *)
Lemma export_iteration i p pdf cs :
  cancelRequested p = false → deck_texts p = cs → i < length cs →
  ∃ p' im,
    export_loop sched canvas_size pageW pageH [i] (p, pdf) = Normal (p', addImage im pdf ++ open_page (S i) (length cs))
    ∧ cs !! i = Some (slide_text (imgData im))
    ∧ deck_texts p' = cs
    ∧ cancelRequested p' = cancel_at sched i.
Proof.
  intros Hc Ht Hi. cbn [export_loop fst snd]. rewrite Hc.
  destruct (goto_same (Z.of_nat i) (nav p)) as (n & En & Hn). rewrite En.
  cbn [mbind completion_bind].
  match goal with |- context [deliver (sched (AwaitSettle i)) ?q] =>
    destruct (deliver_spec (sched (AwaitSettle i)) q) as (p1 & E1 & T1 & C1 & _) end.
  rewrite E1. cbn [mbind completion_bind].
  assert (T1' : deck_texts p1 = cs).
  { rewrite T1. unfold deck_texts. cbn. rewrite <- Ht. exact Hn. }
  assert (Hel : ∃ el, slideEls (nav p1) !! i = Some el ∧ cs !! i = Some (slide_text el)).
  { destruct (slideEls (nav p1) !! i) as [el|] eqn:L.
    - exists el. split; [reflexivity|]. rewrite <- T1'. unfold deck_texts.
      rewrite list_lookup_fmap, L. reflexivity.
    - apply lookup_ge_None in L. apply (f_equal length) in T1'.
      unfold deck_texts in T1'. rewrite length_map in T1'. lia. }
  destruct Hel as (el & L & Hcs). rewrite L. cbn [mbind completion_bind].
  destruct (deliver_spec (sched (AwaitCanvas i)) p1) as (p2 & E2 & T2 & C2 & _).
  rewrite E2. cbn [mbind completion_bind].
  assert (T2' : deck_texts p2 = cs) by congruence.
  assert (Htot : total (nav p2) = Z.of_nat (length cs)).
  { unfold total. apply (f_equal length) in T2'. unfold deck_texts in T2'.
    rewrite length_map in T2'. rewrite T2'. reflexivity. }
  exists p2. eexists. split.
  { rewrite Htot. unfold addPage.
    destruct (Z.ltb_spec (Z.of_nat i) (Z.of_nat (length cs) - 1)) as [Hlt|Hge].
    - rewrite open_page_lt by lia. reflexivity.
    - rewrite open_page_ge by lia. rewrite app_nil_r. reflexivity. }
  split; [exact Hcs|]. split; [exact T2'|].
  rewrite C2, C1. cbn. rewrite Hc. reflexivity.
Qed.

Lemma addImage_last im (full : Pdf) : addImage im (full ++ [[]]) = full ++ [[im]].
Proof.
  unfold addImage. replace (length (full ++ [[]]) - 1) with (length full)
    by (rewrite length_app; cbn; lia).
  exact (alter_middle (λ pg : list Image, pg ++ [im]) full [] []).
Qed.

(** The iterations for slides [k .. k+m-1] when no cancel click arrives
    during them. *)
Lemma export_loop_run m : ∀ k p full cs,
  cancelRequested p = false → deck_texts p = cs →
  k < length cs → k + m ≤ length cs →
  (∀ i, k ≤ i < k + m → cancel_at sched i = false) →
  ∃ p' new,
    export_loop sched canvas_size pageW pageH (seq k m) (p, full ++ [[]])
    = Normal (p', full ++ new ++ open_page (k + m) (length cs))
    ∧ pages_show new (take m (drop k cs))
    ∧ deck_texts p' = cs
    ∧ cancelRequested p' = false.
Proof.
  induction m as [|m IH]; intros k p full cs Hc Ht Hk Hkm Hq.
  - exists p, []. rewrite Nat.add_0_r, open_page_lt by exact Hk.
    cbn. repeat split; try assumption. constructor.
  - rewrite seq_S, export_loop_app.
    destruct (IH k p full cs Hc Ht Hk) as (p1 & new & E1 & Hnew & T1 & C1); [lia| |].
    { intros i Hi. apply Hq. lia. }
    rewrite (open_page_lt (k + m)) in E1 by lia.
    rewrite E1. cbn [mbind completion_bind].
    destruct (export_iteration (k + m) p1 (full ++ new ++ [[]]) cs C1 T1) as (p2 & im & E2 & Him & T2 & C2);
      [lia|].
    exists p2, (new ++ [[im]]).
    split; [|split; [|split; [exact T2|]]].
    + etransitivity; [exact E2|]. do 2 f_equal.
      rewrite (app_assoc full new [[]]), addImage_last.
      replace (k + S m) with (S (k + m)) by lia.
      rewrite <- !app_assoc. reflexivity.
    + assert (Hsplit : take (S m) (drop k cs) = take m (drop k cs) ++ [slide_text (imgData im)]).
      { rewrite (take_S_r _ _ (slide_text (imgData im))); [reflexivity|].
        rewrite lookup_drop. exact Him. }
      rewrite Hsplit. apply Forall2_app; [exact Hnew|].
      constructor; [|constructor]. exists im. split; reflexivity.
    + rewrite C2. apply Hq. lia.
Qed.

End ExportProofs.

Lemma bind_normal {A B} (c : Completion A) (a : A) (f : A → Completion B) :
  c = Normal a → (x ← c; f x) = f a.
Proof. intros ->. reflexivity. Qed.

Lemma pages_show_images new cs :
  pages_show new cs →
  Forall2 (λ im c, slide_text (imgData im) = c) (concat new) cs.
Proof.
  induction 1 as [|pg c pgs cs (im & -> & Him) _ IH]; [constructor|].
  cbn. constructor; assumption.
Qed.

Lemma pages_show_length new cs : pages_show new cs → length new = length cs.
Proof. apply Forall2_length. Qed.

(** The page [exportToPdf] starts from, and the one it returns. *)
Lemma export_unfold sched size pageW pageH title p :
  jspdf p = true → html2canvas p = true →
  ∃ p0, deck_texts p0 = deck_texts p ∧ cancelRequested p0 = false
    ∧ exportToPdf sched size pageW pageH title p
      = (p1 ← deliver (sched AwaitStart) p0;
         st ← export_loop sched size pageW pageH (seq 0 (length (slideEls (nav p1)))) (p1, new_jsPDF);
         fin ← (if negb (cancelRequested st.1) then
                  p2 ← deliver (sched AwaitFinalize) (write_status "Finalizing PDF…" st.1);
                  mret (p2, Some (or_default title "presentation" +:+ ".pdf"))
                else mret (write_status "Export canceled" st.1, None));
         mret (mkExported
                 (set_exportOverlay (add "hidden" <$> exportOverlay
                      (set_bodyClasses (remove "exporting" (bodyClasses fin.1)) fin.1))
                    (set_bodyClasses (remove "exporting" (bodyClasses fin.1)) fin.1))
                 (Some st.2) fin.2)).
Proof.
  intros Hj Hh. eexists. split; [|split]; [| |unfold exportToPdf; rewrite Hj, Hh; cbn [andb negb]; reflexivity];
    reflexivity.
Qed.

Lemma length_deck_texts p : length (deck_texts p) = length (slideEls (nav p)).
Proof. unfold deck_texts. apply length_map. Qed.

(** C6: on a page with both libraries and at least one slide, an export
    during which no cancel click arrives returns normally with a document of
    exactly N pages, page i holding one image, that of slide i; it is saved
    as the deck title followed by ".pdf", or as "presentation.pdf" when the
    deck has no title; the exporting class is off the body afterwards. *)
Theorem export_without_cancel sched size pageW pageH title p :
  jspdf p = true → html2canvas p = true → slideEls (nav p) ≠ [] →
  (∀ a, has_cancel (sched a) = false) →
  ∃ e pdf,
    exportToPdf sched size pageW pageH title p = Normal e
    ∧ doc e = Some pdf
    ∧ length pdf = length (slideEls (nav p))
    ∧ pages_show pdf (deck_texts p)
    ∧ saved e = Some (or_default title "presentation" +:+ ".pdf")
    ∧ (title = None → saved e = Some "presentation.pdf")
    ∧ (∀ t, title = Some t → t ≠ "" → saved e = Some (t +:+ ".pdf"))
    ∧ contains "exporting" (bodyClasses (page e)) = false.
Proof.
  intros Hj Hh Hne Hq.
  destruct (export_unfold sched size pageW pageH title p Hj Hh) as (p0 & T0 & C0 & ->).
  destruct (deliver_spec (sched AwaitStart) p0) as (p1 & E1 & T1 & C1 & _).
  rewrite E1. cbn [mbind completion_bind].
  rewrite C0, Hq in C1. cbn in C1.
  assert (T1' : deck_texts p1 = deck_texts p) by congruence.
  assert (Hlen : length (slideEls (nav p1)) = length (deck_texts p)).
  { rewrite <- T1'. symmetry. apply length_deck_texts. }
  assert (Hpos : 0 < length (deck_texts p)).
  { rewrite length_deck_texts. destruct (slideEls (nav p)); [congruence|cbn; lia]. }
  destruct (export_loop_run sched size pageW pageH (length (deck_texts p)) 0 p1 []
              (deck_texts p) C1 T1' Hpos) as (p2 & new & E2 & Hnew & T2 & C2); [lia| |].
  { intros i _. unfold cancel_at. rewrite !Hq. reflexivity. }
  rewrite Hlen. erewrite bind_normal by exact E2.
  cbn [mbind completion_bind fst snd]. rewrite C2. cbn [negb].
  destruct (deliver_spec (sched AwaitFinalize) (write_status "Finalizing PDF…" p2))
    as (p3 & E3 & _ & _ & _).
  rewrite E3. cbn [mbind completion_bind mret completion_ret fst snd].
  rewrite open_page_ge, app_nil_r by lia. cbn [app].
  rewrite drop_0, firstn_all in Hnew.
  eexists _, new. split; [reflexivity|]. cbn [doc saved page].
  split; [reflexivity|]. split; [rewrite (pages_show_length _ _ Hnew); apply length_deck_texts|].
  split; [exact Hnew|]. split; [reflexivity|].
  split; [intros ->; reflexivity|].
  split.
  - intros t -> Ht. unfold or_default. rewrite bool_decide_eq_false_2 by exact Ht. reflexivity.
  - cbn. apply contains_remove.
Qed.

(** C7: when the first cancel click arrives just before the loop reaches
    slide k, the export returns without saving; the document holds the
    images of the slides before k, in order, and no other image, also when
    the click came while slide k-1 was being rasterized.  The cancel
    handler raises the flag, hides the overlay and takes the exporting class
    off the body, and leaves the slides and the status line as they are. *)
Theorem export_cancelled_before sched size pageW pageH title p k :
  jspdf p = true → html2canvas p = true →
  k ≤ length (slideEls (nav p)) →
  cancelled_before sched k →
  (∃ e pdf,
      exportToPdf sched size pageW pageH title p = Normal e
      ∧ doc e = Some pdf
      ∧ saved e = None
      ∧ Forall2 (λ im c, slide_text (imgData im) = c) (concat pdf) (take k (deck_texts p))
      ∧ cancelRequested (page e) = true)
  ∧ (∀ q, cancelRequested (cancelClick q) = true
          ∧ contains "exporting" (bodyClasses (cancelClick q)) = false
          ∧ (∀ cl, exportOverlay q = Some cl →
                   ∃ cl', exportOverlay (cancelClick q) = Some cl'
                          ∧ contains "hidden" cl' = true)
          ∧ nav (cancelClick q) = nav q
          ∧ exportStatus (cancelClick q) = exportStatus q).
Proof.
  intros Hj Hh Hk Hc. split.
  2: { intros q. unfold cancelClick. cbn. split; [reflexivity|].
       split; [apply contains_remove|]. split; [|split; reflexivity].
       intros cl ->. eexists. split; [reflexivity|apply contains_add]. }
  destruct (export_unfold sched size pageW pageH title p Hj Hh) as (p0 & T0 & C0 & ->).
  destruct (deliver_spec (sched AwaitStart) p0) as (p1 & E1 & T1 & C1 & _).
  rewrite E1. cbn [mbind completion_bind].
  assert (T1' : deck_texts p1 = deck_texts p) by congruence.
  assert (Hlen : length (slideEls (nav p1)) = length (deck_texts p)).
  { rewrite <- T1'. symmetry. apply length_deck_texts. }
  rewrite <- length_deck_texts in Hk. rewrite Hlen.
  destruct k as [|j]; cbn [cancelled_before] in Hc.
  - rewrite C0, Hc in C1. cbn in C1.
    rewrite export_loop_cancelled by exact C1.
    cbn [mbind completion_bind mret completion_ret fst snd]. rewrite C1. cbn [negb fst snd].
    eexists _, _. split; [reflexivity|]. cbn [doc saved page].
    split; [reflexivity|]. split; [reflexivity|]. split; [constructor|].
    cbn. exact C1.
  - destruct Hc as (Hs & Hbefore & Hat). rewrite C0, Hs in C1. cbn in C1.
    destruct (export_loop_run sched size pageW pageH j 0 p1 [] (deck_texts p) C1 T1')
      as (p2 & new & E2 & Hnew & T2 & C2); [lia|lia| |].
    { intros i Hi. apply Hbefore. lia. }
    rewrite open_page_lt in E2 by lia. cbn [app Nat.add] in E2.
    destruct (export_iteration sched size pageW pageH j p2 (new ++ [[]]) (deck_texts p) C2 T2)
      as (p3 & im & E3 & Him & T3 & C3); [lia|].
    rewrite addImage_last, Hat in *.
    assert (Eloop : export_loop sched size pageW pageH (seq 0 (length (deck_texts p))) (p1, new_jsPDF)
                    = Normal (p3, (new ++ [[im]]) ++ open_page (S j) (length (deck_texts p)))).
    { replace (length (deck_texts p)) with (j + S (length (deck_texts p) - S j)) at 1 by lia.
      rewrite seq_app, export_loop_app. erewrite bind_normal by exact E2.
      cbn [seq Nat.add].
      rewrite export_loop_cons.
      erewrite bind_normal by exact E3.
      apply export_loop_cancelled. exact C3. }
    erewrite bind_normal by exact Eloop.
    cbn [mbind completion_bind mret completion_ret fst snd]. rewrite C3. cbn [negb fst snd].
    eexists _, _. split; [reflexivity|]. cbn [doc saved page].
    split; [reflexivity|]. split; [reflexivity|]. split; [|cbn; exact C3].
    rewrite concat_app.
    assert (Hop : concat (open_page (S j) (length (deck_texts p))) = @nil Image).
    { unfold open_page. destruct (S j <? length (deck_texts p)); reflexivity. }
    rewrite Hop, app_nil_r, concat_app. cbn [concat app].
    rewrite (take_S_r _ _ _ Him).
    apply Forall2_app; [|constructor; [reflexivity|constructor]].
    apply pages_show_images. rewrite drop_0 in Hnew. exact Hnew.
Qed.

Lemma export_without_cancel_witness :
  ∃ e pdf,
    exportToPdf quiet demo_size 210 297 (Some "Deck") demo_page = Normal e
    ∧ doc e = Some pdf
    ∧ length pdf = length (slideEls (nav demo_page))
    ∧ pages_show pdf (deck_texts demo_page)
    ∧ saved e = Some (or_default (Some "Deck") "presentation" +:+ ".pdf")
    ∧ (Some "Deck" = None → saved e = Some "presentation.pdf")
    ∧ (∀ t, Some "Deck" = Some t → t ≠ "" → saved e = Some (t +:+ ".pdf"))
    ∧ contains "exporting" (bodyClasses (page e)) = false.
Proof.
  apply (export_without_cancel quiet demo_size 210 297 (Some "Deck") demo_page).
  - reflexivity.
  - reflexivity.
  - vm_compute. discriminate.
  - intros a. reflexivity.
Defined.

Lemma export_cancelled_before_witness :
  ∃ e pdf,
    exportToPdf (cancel_in (AwaitCanvas 1)) demo_size 210 297 None demo_page = Normal e
    ∧ doc e = Some pdf
    ∧ saved e = None
    ∧ Forall2 (λ im c, slide_text (imgData im) = c) (concat pdf) (take 2 (deck_texts demo_page))
    ∧ cancelRequested (page e) = true.
Proof.
  apply (export_cancelled_before (cancel_in (AwaitCanvas 1)) demo_size 210 297 None demo_page 2).
  - reflexivity.
  - reflexivity.
  - vm_compute. lia.
  - cbn [cancelled_before]. split; [reflexivity|]. split; [|reflexivity].
    intros i Hi. assert (i = 0) as -> by lia. reflexivity.
Defined.

(** * Further properties *)

(** ** Escaping and the fatal box *)

Lemma append_cons d s t : String d s +:+ t = String d (s +:+ t).
Proof. reflexivity. Qed.

Lemma occurs_app c s t : occurs c (s +:+ t) = occurs c s + occurs c t.
Proof.
  induction s as [|d s IH]; [reflexivity|]. rewrite append_cons. cbn [occurs].
  rewrite IH. lia.
Qed.

Lemma escape_char_occurs c :
  occurs "<" (escape_char c) = 0 ∧ occurs ">" (escape_char c) = 0
  ∧ occurs "034" (escape_char c) = 0 ∧ occurs "'" (escape_char c) = 0
  ∧ occurs "&" (escape_char c) = (if special c then 1 else 0).
Proof. destruct c as [[] [] [] [] [] [] [] []]; vm_compute; repeat split. Qed.

(** None of the four markup characters survives, and each replaced
    character leaves one ampersand. *)
Lemma escapeHtml_occurs (s : string) :
  occurs "<" (escapeHtml s) = 0 ∧ occurs ">" (escapeHtml s) = 0
  ∧ occurs "034" (escapeHtml s) = 0 ∧ occurs "'" (escapeHtml s) = 0
  ∧ occurs "&" (escapeHtml s) = specials s.
Proof.
  induction s as [|c s (H1 & H2 & H3 & H4 & H5)]; [repeat split|].
  destruct (escape_char_occurs c) as (C1 & C2 & C3 & C4 & C5).
  cbn [escapeHtml specials]. rewrite !occurs_app, H1, H2, H3, H4, H5, C1, C2, C3, C4, C5.
  repeat split.
Qed.

(** X1: the text [escapeHtml] returns holds none of the characters [<],
    [>], the double and the single quote, and one ampersand for each
    replaced character. *)
Theorem escapeHtml_no_markup (s : string) :
  (∀ c, c ∈ ["<"; ">"; "034"; "'"]%char → occurs c (escapeHtml s) = 0)
  ∧ occurs "&" (escapeHtml s) = specials s.
Proof.
  destruct (escapeHtml_occurs s) as (H1 & H2 & H3 & H4 & H5).
  split; [|exact H5]. intros c Hc.
  repeat (apply elem_of_cons in Hc as [->|Hc]; [assumption|]).
  apply elem_of_nil in Hc. contradiction.
Qed.

Lemma escapeHtml_no_markup_witness :
  occurs "<" (escapeHtml "<b onclick='x'>Tom & Jerry</b>") = 0.
Proof.
  apply (proj1 (escapeHtml_no_markup "<b onclick='x'>Tom & Jerry</b>")).
  apply list_elem_of_here.
Defined.

Lemma unescape_escape_char c r :
  unescapeHtml (escape_char c +:+ escapeHtml r) = String c (unescapeHtml (escapeHtml r)).
Proof.
  assert (H : special c = true ∨ escape_char c = String c EmptyString ∧ c ≠ "&"%char).
  { destruct c as [[] [] [] [] [] [] [] []]; vm_compute; auto; right; split; congruence. }
  destruct H as [H | [H Hc]].
  - destruct c as [[] [] [] [] [] [] [] []]; try discriminate H; reflexivity.
  - rewrite H, append_cons. change (EmptyString +:+ escapeHtml r) with (escapeHtml r).
    destruct c as [[] [] [] [] [] [] [] []]; try reflexivity.
    congruence.
Qed.

(** X2: the five entities decode to the characters they stand for: what the
    box shows is the text that was reported, and two different texts never
    give the same markup. *)
Theorem escapeHtml_round_trip (s : string) : unescapeHtml (escapeHtml s) = s.
Proof.
  induction s as [|c s IH]; [reflexivity|].
  cbn [escapeHtml]. rewrite unescape_escape_char, IH. reflexivity.
Qed.

Lemma escapeHtml_app s t : escapeHtml (s +:+ t) = escapeHtml s +:+ escapeHtml t.
Proof.
  induction s as [|c s IH]; [reflexivity|].
  rewrite append_cons. cbn [escapeHtml]. rewrite IH.
  generalize (escape_char c). intros e. induction e as [|d e IHe]; [reflexivity|].
  rewrite !append_cons, IHe. reflexivity.
Qed.

(** X3: a text without any of the five characters is left as it is. *)
Theorem escapeHtml_plain_text (s : string) : specials s = 0 → escapeHtml s = s.
Proof.
  induction s as [|c s IH]; [reflexivity|]. cbn [specials escapeHtml].
  destruct (special c) eqn:E; [discriminate|]. cbn. intros H. rewrite (IH H).
  destruct c as [[] [] [] [] [] [] [] []]; try discriminate E; reflexivity.
Qed.

Lemma escapeHtml_plain_text_witness :
  escapeHtml "HTTP 404 while fetching content.json" = "HTTP 404 while fetching content.json".
Proof. apply (escapeHtml_plain_text "HTTP 404 while fetching content.json"). reflexivity. Defined.

(** X4: whatever the message and the detail are, the markup of the fatal
    box has the six tags of the template and no more: three opening and
    three closing tags, with the six quotes of the three style
    attributes. *)
Theorem fatal_html_fixed_tags (message : string) (detail : option string) :
  occurs "<" (fatal_html message detail) = 6
  ∧ occurs ">" (fatal_html message detail) = 6
  ∧ occurs "034" (fatal_html message detail) = 6
  ∧ occurs "'" (fatal_html message detail) = 0.
Proof.
  destruct (escapeHtml_occurs message) as (M1 & M2 & M3 & M4 & _).
  destruct (escapeHtml_occurs (or_default detail "")) as (D1 & D2 & D3 & D4 & _).
  unfold fatal_html. rewrite !occurs_app, M1, M2, M3, M4, D1, D2, D3, D4.
  repeat split; vm_compute; reflexivity.
Qed.

Lemma report_all_one reports : ∀ boxes,
  length boxes ≤ 1 → length (report_all reports boxes) ≤ 1.
Proof.
  induction reports as [|r reports IH]; intros boxes H; [exact H|].
  cbn [report_all foldl]. apply IH. unfold showFatal_boxes.
  destruct boxes as [|b [|b' boxes]]; cbn in *; lia.
Qed.

(** X5: on a page with at most one fatal box, any series of reports leaves
    exactly one box, and it shows the last report: reports replace each
    other, they do not pile up. *)
Theorem reports_replace_each_other reports message detail boxes :
  length boxes ≤ 1 →
  report_all (reports ++ [(message, detail)]) boxes = [fatal_html message detail].
Proof.
  intros H. unfold report_all. rewrite foldl_app. cbn [foldl fst snd].
  fold (report_all reports boxes). pose proof (report_all_one reports boxes H) as L.
  unfold showFatal_boxes. destruct (report_all reports boxes) as [|b [|b' bs]]; cbn in *;
    [reflexivity|reflexivity|lia].
Qed.

Lemma reports_replace_each_other_witness :
  report_all ([("Could not load content.json.", Some "HTTP 404")]
              ++ [("Unexpected error in app.js.", None)])
    [fatal_html "old" None]
  = [fatal_html "Unexpected error in app.js." None].
Proof.
  apply (reports_replace_each_other [("Could not load content.json.", Some "HTTP 404")]
           "Unexpected error in app.js." None [fatal_html "old" None]).
  simpl. lia.
Defined.

(** ** Start-up outcomes *)


(** ** More on the export *)

(** X7: without jsPDF or html2canvas the export only reports: no document is
    made, nothing is saved, and the body classes, the overlay, the status
    line, the flag and the slides stay as they were. *)
Theorem export_needs_libraries sched size pageW pageH title p :
  jspdf p = false ∨ html2canvas p = false →
  ∃ e, exportToPdf sched size pageW pageH title p = Normal e
       ∧ doc e = None ∧ saved e = None
       ∧ fatalError (page e)
         = Some (mkFatal "PDF export libraries missing (jsPDF/html2canvas). Make sure index.html includes the CDN scripts." NoDetail)
       ∧ bodyClasses (page e) = bodyClasses p
       ∧ exportOverlay (page e) = exportOverlay p
       ∧ exportStatus (page e) = exportStatus p
       ∧ cancelRequested (page e) = cancelRequested p
       ∧ nav (page e) = nav p.
Proof.
  intros H. unfold exportToPdf.
  assert (E : jspdf p && html2canvas p = false).
  { destruct H as [-> | ->]; [reflexivity | apply andb_false_r]. }
  rewrite E. cbn [negb]. eexists. split; [reflexivity|]. repeat split.
Qed.

Lemma export_needs_libraries_witness :
  ∃ e, exportToPdf quiet demo_size 210 297 None (set_fatalError None
         (mkPage true (nav demo_page) [] None None None None 900 false true true false))
       = Normal e ∧ doc e = None ∧ saved e = None.
Proof.
  destruct (export_needs_libraries quiet demo_size 210 297 None
              (set_fatalError None
                 (mkPage true (nav demo_page) [] None None None None 900 false true true false)))
    as (e & E & D & S & _).
  - left. reflexivity.
  - exists e. repeat split; assumption.
Defined.

Lemma concat_addImage im (pdf : Pdf) :
  pdf ≠ [] → concat (addImage im pdf) = concat pdf ++ [im] ∧ addImage im pdf ≠ [].
Proof.
  intros H. destruct (reverse pdf) as [|pg rest] eqn:R.
  - apply (f_equal reverse) in R. rewrite reverse_involutive in R. contradiction.
  - assert (Hp : pdf = reverse rest ++ [pg]).
    { apply (f_equal reverse) in R. rewrite reverse_involutive, reverse_cons in R. exact R. }
    rewrite Hp. unfold addImage.
    replace (length (reverse rest ++ [pg]) - 1) with (length (reverse rest))
      by (rewrite length_app; cbn; lia).
    assert (Halt := alter_middle (λ pg : list Image, pg ++ [im]) (reverse rest) pg []).
    split.
    + etransitivity; [exact (f_equal (@concat Image) Halt)|].
      rewrite !concat_app. cbn. rewrite !app_nil_r, app_assoc. reflexivity.
    + intros Hn. pose proof (f_equal length Halt) as L.
      apply (f_equal length) in Hn. cbn in Hn.
      rewrite length_app in L. cbn in L. unfold Pdf in *. lia.
Qed.

Lemma concat_open_page (pdf : Pdf) k n : concat (pdf ++ open_page k n) = concat pdf.
Proof.
  unfold open_page. destruct (k <? n); rewrite concat_app; cbn; rewrite app_nil_r; reflexivity.
Qed.

Section ExportAlways.
Variable sched : Await → list UserEvent.
Variable canvas_size : SlideEl → float * float.
Variables pageW pageH : float.

(** Any stretch of the loop, whatever is clicked: it returns, the slides
    keep their texts, and the images added are those of a prefix of the
    slides it was to export, all of them when the flag is still down. *)
Lemma export_loop_any m : ∀ k p (pdf : Pdf) cs,
  deck_texts p = cs → k + m ≤ length cs → pdf ≠ [] →
  ∃ p' (pdf' : Pdf) ims,
    export_loop sched canvas_size pageW pageH (seq k m) (p, pdf) = Normal (p', pdf')
    ∧ concat pdf' = concat pdf ++ ims
    ∧ pdf' ≠ []
    ∧ length ims ≤ m
    ∧ Forall2 (λ im c, slide_text (imgData im) = c) ims (take (length ims) (drop k cs))
    ∧ deck_texts p' = cs
    ∧ (cancelRequested p' = false → length ims = m ∧ cancelRequested p = false).
Proof.
  induction m as [|m IH]; intros k p pdf cs Ht Hk Hne.
  - exists p, pdf, []. cbn. rewrite app_nil_r. repeat split; auto; constructor.
  - destruct (cancelRequested p) eqn:Hc.
    + exists p, pdf, []. rewrite export_loop_cancelled by exact Hc.
      rewrite app_nil_r. cbn. repeat split; auto; try lia; try congruence; constructor.
    + cbn [seq]. rewrite export_loop_cons.
      destruct (export_iteration sched canvas_size pageW pageH k p pdf cs Hc Ht)
        as (p1 & im & E1 & Him & T1 & C1); [lia|].
      erewrite bind_normal by exact E1.
      destruct (concat_addImage im pdf Hne) as [Hcat Hne1].
      destruct (IH (S k) p1 (addImage im pdf ++ open_page (S k) (length cs)) cs T1)
        as (p2 & pdf2 & ims & E2 & Hc2 & Hne2 & Hl & Hf & T2 & Hs); [lia| |].
      { intros Hn. apply app_eq_nil in Hn as [Hn _]. contradiction. }
      exists p2, pdf2, (im :: ims). split; [exact E2|].
      split; [rewrite Hc2, concat_open_page, Hcat, <- app_assoc; reflexivity|].
      split; [exact Hne2|]. split; [cbn; lia|].
      split.
      { cbn [length]. rewrite (drop_S _ _ _ Him). cbn [take].
        constructor; [reflexivity|exact Hf]. }
      split; [exact T2|].
      intros Hfin. destruct (Hs Hfin) as [Hlen _]. cbn. split; [lia|reflexivity].
Qed.

(** X8: with both libraries, whatever the user clicks while the export runs,
    [exportToPdf] returns normally; the images in the document are those of
    the first k slides, in order, for some k; a file is saved only when all
    slides were exported; the slides keep their texts and the body is
    without the exporting class afterwards. *)
Theorem export_always_returns title p :
  jspdf p = true → html2canvas p = true →
  ∃ e pdf k,
    exportToPdf sched canvas_size pageW pageH title p = Normal e
    ∧ doc e = Some pdf
    ∧ k ≤ length (slideEls (nav p))
    ∧ Forall2 (λ im c, slide_text (imgData im) = c) (concat pdf) (take k (deck_texts p))
    ∧ (is_Some (saved e) → k = length (slideEls (nav p)))
    ∧ deck_texts (page e) = deck_texts p
    ∧ contains "exporting" (bodyClasses (page e)) = false.
Proof.
  intros Hj Hh.
  destruct (export_unfold sched canvas_size pageW pageH title p Hj Hh) as (p0 & T0 & C0 & ->).
  destruct (deliver_spec (sched AwaitStart) p0) as (p1 & E1 & T1 & C1 & _).
  rewrite E1. cbn [mbind completion_bind].
  assert (T1' : deck_texts p1 = deck_texts p) by congruence.
  assert (Hlen : length (slideEls (nav p1)) = length (deck_texts p)).
  { rewrite <- T1'. symmetry. apply length_deck_texts. }
  destruct (export_loop_any (length (deck_texts p)) 0 p1 new_jsPDF (deck_texts p) T1')
    as (p2 & pdf2 & ims & E2 & Hc2 & Hne2 & Hl & Hf & T2 & Hs); [lia|discriminate|].
  rewrite Hlen. erewrite bind_normal by exact E2.
  cbn [concat new_jsPDF app] in Hc2. rewrite drop_0 in Hf.
  rewrite length_deck_texts in Hl. cbv beta. cbn [fst snd].
  destruct (cancelRequested p2) eqn:Hc; cbn [fst snd negb].
  - cbn [mbind completion_bind mret completion_ret fst snd].
    eexists _, pdf2, (length ims). split; [reflexivity|]. cbn [doc saved page].
    split; [reflexivity|]. split; [exact Hl|]. split; [rewrite Hc2; exact Hf|].
    split; [intros [x Hx]; discriminate|]. split; [exact T2|]. cbn. apply contains_remove.
  - destruct (deliver_spec (sched AwaitFinalize) (write_status "Finalizing PDF…" p2))
      as (p3 & E3 & T3 & _ & _).
    rewrite E3. cbn [mbind completion_bind mret completion_ret fst snd].
    destruct (Hs eq_refl) as [Hall _]. rewrite length_deck_texts in Hall.
    eexists _, pdf2, (length ims). split; [reflexivity|]. cbn [doc saved page].
    split; [reflexivity|]. split; [exact Hl|]. split; [rewrite Hc2; exact Hf|].
    split; [intros _; exact Hall|]. split; [|cbn; apply contains_remove].
    unfold deck_texts in *. cbn. rewrite T3. exact T2.
Qed.

(** X9: a cancel click that comes only during the last wait, after the
    loop, is too late: the flag goes up, and the file with all N pages is
    saved all the same. *)
Theorem late_cancel_still_saves title p :
  jspdf p = true → html2canvas p = true → slideEls (nav p) ≠ [] →
  has_cancel (sched AwaitStart) = false →
  (∀ i, cancel_at sched i = false) →
  has_cancel (sched AwaitFinalize) = true →
  ∃ e pdf,
    exportToPdf sched canvas_size pageW pageH title p = Normal e
    ∧ doc e = Some pdf
    ∧ pages_show pdf (deck_texts p)
    ∧ saved e = Some (or_default title "presentation" +:+ ".pdf")
    ∧ cancelRequested (page e) = true.
Proof.
  intros Hj Hh Hne Hs Hq Hfin.
  destruct (export_unfold sched canvas_size pageW pageH title p Hj Hh) as (p0 & T0 & C0 & ->).
  destruct (deliver_spec (sched AwaitStart) p0) as (p1 & E1 & T1 & C1 & _).
  rewrite E1. cbn [mbind completion_bind].
  rewrite C0, Hs in C1. cbn in C1.
  assert (T1' : deck_texts p1 = deck_texts p) by congruence.
  assert (Hlen : length (slideEls (nav p1)) = length (deck_texts p)).
  { rewrite <- T1'. symmetry. apply length_deck_texts. }
  assert (Hpos : 0 < length (deck_texts p)).
  { rewrite length_deck_texts. destruct (slideEls (nav p)); [congruence|cbn; lia]. }
  destruct (export_loop_run sched canvas_size pageW pageH (length (deck_texts p)) 0 p1 []
              (deck_texts p) C1 T1' Hpos) as (p2 & new & E2 & Hnew & T2 & C2); [lia| |].
  { intros i _. apply Hq. }
  rewrite Hlen. erewrite bind_normal by exact E2.
  cbn [mbind completion_bind fst snd]. rewrite C2. cbn [negb].
  destruct (deliver_spec (sched AwaitFinalize) (write_status "Finalizing PDF…" p2))
    as (p3 & E3 & _ & C3 & _).
  rewrite E3. cbn [mbind completion_bind mret completion_ret fst snd].
  rewrite open_page_ge, app_nil_r by lia. cbn [app].
  rewrite drop_0, firstn_all in Hnew.
  eexists _, new. split; [reflexivity|]. cbn [doc saved page].
  split; [reflexivity|]. split; [exact Hnew|]. split; [reflexivity|].
  cbn. rewrite C3, Hfin. apply orb_true_r.
Qed.

(** X10: with no slide on the stage (which the start-up never leaves
    behind) the export saves a document of one blank page. *)
Theorem export_of_empty_stage title p :
  jspdf p = true → html2canvas p = true → slideEls (nav p) = [] →
  has_cancel (sched AwaitStart) = false →
  ∃ e, exportToPdf sched canvas_size pageW pageH title p = Normal e
       ∧ doc e = Some [[]]
       ∧ saved e = Some (or_default title "presentation" +:+ ".pdf").
Proof.
  intros Hj Hh He Hs.
  destruct (export_unfold sched canvas_size pageW pageH title p Hj Hh) as (p0 & T0 & C0 & ->).
  destruct (deliver_spec (sched AwaitStart) p0) as (p1 & E1 & T1 & C1 & _).
  rewrite E1. cbn [mbind completion_bind].
  rewrite C0, Hs in C1. cbn in C1.
  assert (Hlen : length (slideEls (nav p1)) = 0).
  { rewrite <- length_deck_texts, T1, T0, length_deck_texts, He. reflexivity. }
  rewrite Hlen. cbn [seq export_loop mbind completion_bind fst snd]. rewrite C1. cbn [negb].
  destruct (deliver_spec (sched AwaitFinalize) (write_status "Finalizing PDF…" p1))
    as (p3 & E3 & _ & _ & _).
  rewrite E3. cbn [mbind completion_bind mret completion_ret fst snd].
  eexists. split; [reflexivity|]. split; reflexivity.
Qed.

End ExportAlways.

Lemma late_cancel_still_saves_witness :
  ∃ e pdf,
    exportToPdf (cancel_in AwaitFinalize) demo_size 210 297 (Some "Deck") demo_page = Normal e
    ∧ doc e = Some pdf
    ∧ pages_show pdf (deck_texts demo_page)
    ∧ saved e = Some (or_default (Some "Deck") "presentation" +:+ ".pdf")
    ∧ cancelRequested (page e) = true.
Proof.
  apply (late_cancel_still_saves (cancel_in AwaitFinalize) demo_size 210 297 (Some "Deck") demo_page).
  - reflexivity.
  - reflexivity.
  - vm_compute. discriminate.
  - reflexivity.
  - intros i. reflexivity.
  - reflexivity.
Defined.

Lemma export_always_returns_witness :
  ∃ e pdf k,
    exportToPdf (cancel_in (AwaitSettle 0)) demo_size 210 297 None demo_page = Normal e
    ∧ doc e = Some pdf
    ∧ k ≤ length (slideEls (nav demo_page))
    ∧ Forall2 (λ im c, slide_text (imgData im) = c) (concat pdf) (take k (deck_texts demo_page))
    ∧ (is_Some (saved e) → k = length (slideEls (nav demo_page)))
    ∧ deck_texts (page e) = deck_texts demo_page
    ∧ contains "exporting" (bodyClasses (page e)) = false.
Proof.
  apply (export_always_returns (cancel_in (AwaitSettle 0)) demo_size 210 297 None demo_page);
    reflexivity.
Defined.

Lemma export_of_empty_stage_witness :
  ∃ e, exportToPdf quiet demo_size 210 297 None blank_page = Normal e
       ∧ doc e = Some [[]]
       ∧ saved e = Some (or_default None "presentation" +:+ ".pdf").
Proof.
  apply (export_of_empty_stage quiet demo_size 210 297 None blank_page); reflexivity.
Defined.

(** ** More on navigation *)

Lemma add_idem tok cl : add tok (add tok cl) = add tok cl.
Proof. unfold add at 1. rewrite contains_add. reflexivity. Qed.

Lemma remove_idem tok cl : remove tok (remove tok cl) = remove tok cl.
Proof.
  unfold remove. induction cl as [|t cl IH]; [reflexivity|].
  destruct (decide (t ≠ tok)) as [H|H].
  - rewrite filter_cons_True by exact H. rewrite filter_cons_True by exact H.
    rewrite IH. reflexivity.
  - rewrite filter_cons_False by exact H. exact IH.
Qed.

Lemma toggle_idem tok b cl : toggle tok b (toggle tok b cl) = toggle tok b cl.
Proof. destruct b; [apply add_idem | apply remove_idem]. Qed.

Lemma mark_visible_idem cur els :
  mark_visible cur (mark_visible cur els) = mark_visible cur els.
Proof.
  unfold mark_visible. apply list_eq. intros i. rewrite !list_lookup_imap.
  destruct (els !! i) as [el|]; [|reflexivity]. cbn. f_equal.
  unfold with_classes. cbn. rewrite toggle_idem. reflexivity.
Qed.

Lemma shown_idem s : shown (shown s) = shown s.
Proof.
  unfold shown at 1. rewrite total_shown. unfold shown. cbn [slideEls current counter progressFill].
  rewrite mark_visible_idem. destruct (counter s), (progressFill s); reflexivity.
Qed.

Lemma moved_idem n s : moved n (moved n s) = moved n s.
Proof.
  unfold moved at 1. rewrite total_moved.
  set (X := {| slideEls := slideEls s; current := clamp n (total s);
               counter := counter s; progressFill := progressFill s |}).
  change (moved n s) with (shown X). exact (shown_idem X).
Qed.

(** X11: going to the slide that is already shown changes nothing: the
    state [goto n] returns is a fixed point of [goto n]. *)
Theorem goto_twice (n : Z) (s s' : Nav) :
  Hardened.goto n s = Normal s' → Hardened.goto n s' = Normal s'.
Proof.
  rewrite !goto_normal. destruct (total s =? 0)%Z eqn:E; intros [= <-].
  - rewrite E. reflexivity.
  - rewrite total_moved, E, moved_idem. reflexivity.
Qed.

Lemma goto_twice_witness :
  Hardened.goto 1 (moved 1 (demo_nav 3)) = Normal (moved 1 (demo_nav 3)).
Proof. apply (goto_twice 1 (demo_nav 3)). vm_compute. reflexivity. Defined.

(** X12: the buttons and keys move by one slide and stop at the ends: next
    gives [min (current + 1) (N - 1)], previous gives [max (current - 1) 0];
    Space and ArrowRight act as next, ArrowLeft as previous, and any other
    key leaves the state as it is. *)
Theorem buttons_and_keys (s : Nav) :
  nav_ok s →
  (∃ s1, on_nav NextClick s = Normal s1
         ∧ current s1 = Z.min (current s + 1) (total s - 1))
  ∧ (∃ s2, on_nav PrevClick s = Normal s2
           ∧ current s2 = Z.max (current s - 1) 0)
  ∧ on_nav (KeyDown " ") s = on_nav NextClick s
  ∧ on_nav (KeyDown "ArrowRight") s = on_nav NextClick s
  ∧ on_nav (KeyDown "ArrowLeft") s = on_nav PrevClick s
  ∧ (∀ key, key ≠ " " → key ≠ "ArrowRight" → key ≠ "ArrowLeft" →
            on_nav (KeyDown key) s = Normal s).
Proof.
  intros [Hr _]. cbn [on_nav].
  assert (E : (total s =? 0)%Z = false) by (apply Z.eqb_neq; lia).
  rewrite !goto_normal, E.
  split; [eexists; split; [reflexivity|]; unfold moved, shown, clamp; cbn [current]; lia|].
  split; [eexists; split; [reflexivity|]; unfold moved, shown, clamp; cbn [current]; lia|].
  split; [reflexivity|]. split; [reflexivity|]. split; [reflexivity|].
  intros key H1 H2 H3. rewrite !bool_decide_eq_false_2 by assumption. reflexivity.
Qed.

Lemma buttons_and_keys_witness :
  on_nav (KeyDown "ArrowRight") (moved 2 (demo_nav 3)) = on_nav NextClick (moved 2 (demo_nav 3)).
Proof.
  assert (H : nav_ok (moved 2 (demo_nav 3))) by (apply moved_ok; vm_compute; discriminate).
  exact (proj1 (proj2 (proj2 (proj2 (buttons_and_keys (moved 2 (demo_nav 3)) H))))).
Defined.

Lemma displays_moved n s : displays_ok (moved n s).
Proof.
  unfold displays_ok. rewrite !total_moved. unfold moved, shown.
  cbn [counter progressFill current].
  destruct (counter s), (progressFill s); split; intros [x Hx]; try discriminate; reflexivity.
Qed.

Lemma on_nav_displays ev s :
  displays_ok s → ∃ s', on_nav ev s = Normal s' ∧ displays_ok s' ∧ same_slides s s'.
Proof.
  intros Hd.
  assert (G : ∀ n, ∃ s', Hardened.goto n s = Normal s' ∧ displays_ok s' ∧ same_slides s s').
  { intros n. rewrite goto_normal. destruct (total s =? 0)%Z.
    - exists s. repeat split; try apply Hd.
    - exists (moved n s). split; [reflexivity|]. split; [apply displays_moved|apply same_slides_moved]. }
  destruct ev as [| |key|n]; cbn [on_nav]; try apply G.
  repeat case_bool_decide; try apply G.
  exists s. repeat split; apply Hd.
Qed.

Lemma navigate_displays evs : ∀ s,
  displays_ok s → ∃ s', navigate evs s = Normal s' ∧ displays_ok s' ∧ same_slides s s'.
Proof.
  induction evs as [|ev evs IH]; intros s Hd.
  - exists s. repeat split; apply Hd.
  - destruct (on_nav_displays ev s Hd) as (s1 & E1 & D1 & S1).
    destruct (IH s1 D1) as (s2 & E2 & D2 & S2).
    exists s2. cbn [navigate]. rewrite E1. cbn [mbind completion_bind]. rewrite E2.
    split; [reflexivity|]. split; [exact D2|]. unfold same_slides in *. congruence.
Qed.

Lemma goto_presence n s s' :
  Hardened.goto n s = Normal s' →
  (is_Some (counter s) → is_Some (counter s'))
  ∧ (is_Some (progressFill s) → is_Some (progressFill s')).
Proof.
  rewrite goto_normal. destruct (total s =? 0)%Z; intros [= <-]; [split; auto|].
  unfold moved, shown. cbn. split; intros [x ->]; eexists; reflexivity.
Qed.

Lemma navigate_ok_presence evs : ∀ s s',
  navigate evs s = Normal s' →
  (is_Some (counter s) → is_Some (counter s'))
  ∧ (is_Some (progressFill s) → is_Some (progressFill s')).
Proof.
  induction evs as [|ev evs IH]; intros s s'; cbn [navigate].
  - intros [= <-]. split; auto.
  - destruct (on_nav ev s) as [s1|e] eqn:E1; cbn [mbind completion_bind]; [|discriminate].
    intros E2. destruct (IH s1 s' E2) as [A B].
    assert (G : (is_Some (counter s) → is_Some (counter s1))
                ∧ (is_Some (progressFill s) → is_Some (progressFill s1))).
    { destruct ev as [| |key|n]; cbn [on_nav] in E1; try (eapply goto_presence; exact E1).
      repeat case_bool_decide; try (eapply goto_presence; exact E1).
      injection E1 as <-. split; auto. }
    destruct G as [G1 G2]. split; auto.
Qed.

(** X13: after a start-up without fatal report and any series of navigation
    events, the counter (when the page has one) reads "current+1 / N" and
    the progress bar (when the page has one) has the width line 375
    computes for the current slide. *)
Theorem displays_follow_navigation pow content slides p evs :
  c_slides content = Some slides →
  fatalError (init pow (Parsed content) p) = None →
  ∃ s', navigate evs (nav (init pow (Parsed content) p)) = Normal s'
        ∧ (is_Some (counter (nav p)) →
           counter s' = Some (pretty (current s' + 1)%Z +:+ " / "
                              +:+ pretty (Z.of_nat (length slides))))
        ∧ (is_Some (progressFill (nav p)) →
           progressFill s'
           = Some (String_of_rounded (pct (current s') (Z.of_nat (length slides))) +:+ "%")).
Proof.
  intros Hs Hf. destruct (init_succeeded pow content p Hf) as (sl & Hsl & _ & Hnav & _).
  assert (sl = slides) by congruence. subst sl. rewrite Hnav.
  set (s := {| slideEls := imap HardenedRender.renderSlide slides; current := 0;
               counter := counter (nav p); progressFill := progressFill (nav p) |}).
  destruct (navigate_displays evs (moved 0 s) (displays_moved 0 s)) as (s' & E & [Dc Dp] & Hsame).
  exists s'. split; [exact E|].
  assert (Ht : total s' = Z.of_nat (length slides)).
  { rewrite (same_slides_total _ _ Hsame), total_moved. unfold total, s. cbn.
    rewrite length_imap. reflexivity. }
  destruct (navigate_ok_presence evs (moved 0 s) s' E) as [Pc Pp].
  rewrite Ht in Dc, Dp. split.
  - intros Hc. apply Dc. apply Pc. unfold moved, shown, s. cbn.
    destruct Hc as [c ->]. eexists. reflexivity.
  - intros Hp. apply Dp. apply Pp. unfold moved, shown, s. cbn.
    destruct Hp as [c ->]. eexists. reflexivity.
Qed.

Lemma displays_follow_navigation_witness :
  ∃ s', navigate [NextClick; KeyDown "x"]
          (nav (init pow_stub (Parsed (demo_content (Some "Black"))) blank_page)) = Normal s'
        ∧ (is_Some (counter (nav blank_page)) →
           counter s' = Some (pretty (current s' + 1)%Z +:+ " / " +:+ pretty (Z.of_nat 3)))
        ∧ (is_Some (progressFill (nav blank_page)) →
           progressFill s' = Some (String_of_rounded (pct (current s') (Z.of_nat 3)) +:+ "%")).
Proof.
  apply (displays_follow_navigation pow_stub (demo_content (Some "Black"))
           [mkSlide (Some "One") None None (Some demo_body);
            mkSlide (Some "Two") (Some "sub") None None;
            mkSlide None None (Some "n") (Some split_body)]
           blank_page [NextClick; KeyDown "x"]).
  - reflexivity.
  - vm_compute. reflexivity.
Defined.

(** X14: on decks of 1 to 100 slides the width written to the progress bar
    is a whole number of percent between the rounded share of the first
    slide and 100. *)
Theorem progress_width_bounds (n c : nat) :
  1 ≤ n ≤ 100 → c < n →
  ∃ z, width_text (Z.of_nat c) (Z.of_nat n) = pretty z +:+ "%"
       ∧ (round_exact 100 (Z.of_nat n) ≤ z ≤ 100)%Z.
Proof.
  intros Hn Hc. destruct (width_in_range n c Hn Hc) as (z & E & Hz).
  exists z. unfold width_text. rewrite E. split; [reflexivity|exact Hz].
Qed.

Lemma progress_width_bounds_witness :
  ∃ z, width_text (Z.of_nat 22) (Z.of_nat 40) = pretty z +:+ "%"
       ∧ (round_exact 100 (Z.of_nat 40) ≤ z ≤ 100)%Z.
Proof. apply (progress_width_bounds 40 22); lia. Defined.

(** X15: on a page without slides the hardened [goto] does nothing at all,
    for any argument, while the first version sets the index to -1 and
    writes "0 / 0" and "NaN%" into the two displays. *)
Theorem goto_on_empty_deck (n : Z) (s : Nav) c w :
  slideEls s = [] → counter s = Some c → progressFill s = Some w →
  Hardened.goto n s = Normal s
  ∧ Naive.goto n s
    = Normal {| slideEls := []; current := -1;
                counter := Some "0 / 0"; progressFill := Some "NaN%" |}.
Proof.
  intros He Hc Hw. split.
  - rewrite goto_normal. unfold total. rewrite He. reflexivity.
  - unfold Naive.goto, Naive.updateUI, total. rewrite He. cbn [length slideEls current counter progressFill].
    rewrite Hc, Hw. 
    assert (E : (if (Z.of_nat 0 <=? (if (n <? 0)%Z then 0%Z else n))%Z
                 then (Z.of_nat 0 - 1)%Z else if (n <? 0)%Z then 0%Z else n) = (-1)%Z).
    { cbn [Z.of_nat]. case_cmp; lia. }
    rewrite E. vm_compute. reflexivity.
Qed.

Lemma goto_on_empty_deck_witness :
  Hardened.goto 5 (demo_nav 0) = Normal (demo_nav 0)
  ∧ Naive.goto 5 (demo_nav 0)
    = Normal {| slideEls := []; current := -1;
                counter := Some "0 / 0"; progressFill := Some "NaN%" |}.
Proof. apply (goto_on_empty_deck 5 (demo_nav 0) "" ""); reflexivity. Defined.

(** X16: the first version of [goto] needs both displays: it throws a
    TypeError when the counter or the progress bar is missing from the
    page, for every argument and every deck. *)
Theorem naive_goto_needs_displays (n : Z) (s : Nav) :
  counter s = None ∨ progressFill s = None →
  ∃ e, Naive.goto n s = Throw e.
Proof.
  intros H. unfold Naive.goto, Naive.updateUI. cbn [counter progressFill].
  destruct H as [H|H]; rewrite H.
  - eexists. reflexivity.
  - destruct (counter s); eexists; reflexivity.
Qed.

Lemma naive_goto_needs_displays_witness :
  ∃ e, Naive.goto 1 {| slideEls := slideEls (demo_nav 3); current := 0;
                       counter := Some ""; progressFill := None |} = Throw e.
Proof.
  apply (naive_goto_needs_displays 1). right. reflexivity.
Defined.

(** ** More on themes *)


(** X18: the first version picks the text class like the hardened one: on a
    body that has neither class yet, and for a luminance that is a number,
    both leave the same class list. *)
Theorem contrast_versions_agree (aLum : float) (cl : list string) :
  PrimFloat.is_nan aLum = false →
  contains "light-text" cl = false → contains "dark-text" cl = false →
  NaiveTheme.contrast aLum cl = contrast aLum cl.
Proof.
  intros Hn Hl Hd. unfold NaiveTheme.contrast, contrast.
  assert (Rm : ∀ tok (l : list string), contains tok l = false → remove tok l = l).
  { intros tok l H. unfold remove. apply bool_decide_eq_false in H.
    induction l as [|t l IH]; [reflexivity|].
    rewrite filter_cons_True.
    - f_equal. apply IH. intros Hin. apply H. apply list_elem_of_further. exact Hin.
    - intros ->. apply H. apply list_elem_of_here. }
  rewrite (ltb_negb_leb aLum 0.5 Hn) by (vm_compute; reflexivity).
  destruct (PrimFloat.leb aLum 0.5); cbn [negb toggle].
  - rewrite (Rm "light-text" cl Hl). reflexivity.
  - rewrite Rm; [reflexivity|]. rewrite contains_add_ne by discriminate. exact Hd.
Qed.

Lemma contrast_versions_agree_witness :
  NaiveTheme.contrast 0.75 ["deck"] = contrast 0.75 ["deck"].
Proof. apply (contrast_versions_agree 0.75 ["deck"]); vm_compute; reflexivity. Defined.

(** ** More on rendering *)

Lemma strings_of_strings ss : strings (BStr <$> ss) = ss.
Proof.
  induction ss as [|s ss IH]; [reflexivity|].
  cbn [fmap list_fmap]. rewrite strings_str. f_equal. exact IH.
Qed.

(** X19: entries of a body that are not strings leave no trace: both
    versions render a body like the list of its string entries. *)
Theorem non_strings_are_skipped (items : list BodyItem) :
  HardenedRender.renderBody items = HardenedRender.renderBody (BStr <$> strings items)
  ∧ NaiveRender.renderBody items = NaiveRender.renderBody (BStr <$> strings items).
Proof.
  rewrite !hardened_renderBody, !naive_renderBody, strings_of_strings. split; reflexivity.
Qed.

Lemma paragraphs_no_list ss : filter (λ n, is_list n = true) (paragraphs ss) = [].
Proof.
  unfold paragraphs. induction (filter (λ s, is_bullet s = false) ss) as [|s l IH]; [reflexivity|].
  cbn [fmap list_fmap]. rewrite filter_cons_False by (cbn; discriminate). exact IH.
Qed.

Lemma one_list_count ss :
  length (filter (λ n, is_list n = true) (one_list ss))
  = if existsb is_bullet ss then 1 else 0.
Proof.
  induction ss as [|s ss IH]; [reflexivity|]. cbn [one_list existsb].
  destruct (is_bullet s).
  - rewrite filter_cons_True by reflexivity. rewrite paragraphs_no_list. reflexivity.
  - rewrite filter_cons_False by (cbn; discriminate). exact IH.
Qed.

(** X20: a rendered body never has two lists: it has one list when some
    string of the body is a bullet line, and none otherwise. *)
Theorem at_most_one_list (items : list BodyItem) :
  length (filter (λ n, is_list n = true) (HardenedRender.renderBody items))
  = (if existsb is_bullet (strings items) then 1 else 0)
  ∧ length (filter (λ n, is_list n = true) (NaiveRender.renderBody items))
    = (if existsb is_bullet (strings items) then 1 else 0).
Proof.
  rewrite hardened_renderBody, naive_renderBody, one_list_count. split; reflexivity.
Qed.

(** X21: the text of a list item is the bullet line without its marker and
    the blank after it, for both markers. *)
Theorem list_item_text (par : string) :
  is_bullet par = true →
  par = "• " +:+ strip_marker par ∨ par = "- " +:+ strip_marker par.
Proof.
  intros H. destruct (strip_marker_bullet par H) as [E|E]; [left|right]; symmetry; exact E.
Qed.

Lemma list_item_text_witness :
  "- point one" = "• " +:+ strip_marker "- point one"
  ∨ "- point one" = "- " +:+ strip_marker "- point one".
Proof. apply (list_item_text "- point one"). reflexivity. Defined.

(** X22: slides stay in the order of content.json: after a start-up
    without fatal report and any navigation, element i carries data-index
    i, the title of slide i (empty when absent) and its rendered body. *)
Theorem slides_keep_their_order pow deck slides p evs s' i sl :
  c_slides deck = Some slides →
  fatalError (init pow (Parsed deck) p) = None →
  navigate evs (nav (init pow (Parsed deck) p)) = Normal s' →
  slides !! i = Some sl →
  ∃ el, slideEls s' !! i = Some el
        ∧ data_index el = pretty i
        ∧ h1 el = or_default (title sl) ""
        ∧ content el = (if body sl is Some items then one_list (strings items) else []).
Proof.
  intros Hs Hf Hnav Hi.
  destruct (init_succeeded pow deck p Hf) as (sl' & Hsl & Hne & Hinit & _).
  assert (sl' = slides) by congruence. subst sl'. rewrite Hinit in Hnav.
  set (s := {| slideEls := imap HardenedRender.renderSlide slides; current := 0;
               counter := counter (nav p); progressFill := progressFill (nav p) |}) in *.
  assert (H1 : (1 ≤ total s)%Z).
  { unfold total, s. cbn. rewrite length_imap. destruct slides; [congruence|cbn; lia]. }
  destruct (navigate_ok evs (moved 0 s) ltac:(rewrite total_moved; exact H1) (moved_ok 0 s H1))
    as (s2 & E2 & _ & Hsame).
  assert (s2 = s') by congruence. subst s2.
  assert (Ht : map slide_text (slideEls s') = map slide_text (slideEls s)).
  { unfold same_slides in Hsame. rewrite Hsame. apply same_slides_moved. }
  apply (f_equal (λ l, l !! i)) in Ht. rewrite !list_lookup_fmap in Ht.
  unfold s in Ht. cbn [slideEls] in Ht. rewrite list_lookup_imap, Hi in Ht. cbn in Ht.
  destruct (slideEls s' !! i) as [el|]; [|discriminate]. cbn in Ht.
  injection Ht as Hd Hh _ _ Hc. exists el. split; [reflexivity|].
  split; [exact Hd|]. split; [exact Hh|]. rewrite Hc.
  destruct (body sl); [apply hardened_renderBody|reflexivity].
Qed.

Lemma slides_keep_their_order_witness :
  ∃ el, slideEls (moved 1 (nav demo_page)) !! 2 = Some el
        ∧ data_index el = pretty 2
        ∧ h1 el = or_default (title (mkSlide None None (Some "n") (Some split_body))) ""
        ∧ content el = (if body (mkSlide None None (Some "n") (Some split_body)) is Some items
                        then one_list (strings items) else []).
Proof.
  apply (slides_keep_their_order pow_stub (demo_content (Some "Black"))
           [mkSlide (Some "One") None None (Some demo_body);
            mkSlide (Some "Two") (Some "sub") None None;
            mkSlide None None (Some "n") (Some split_body)]
           blank_page [NextClick] (moved 1 (nav demo_page)) 2
           (mkSlide None None (Some "n") (Some split_body))).
  - reflexivity.
  - vm_compute. reflexivity.
  - vm_compute. reflexivity.
  - reflexivity.
Defined.

(** ** Colours and the compact class *)

Lemma hex_digit_range c v : hex_digit c = Some v → (0 ≤ v ≤ 15)%Z.
Proof.
  destruct c as [[] [] [] [] [] [] [] []]; vm_compute; intros H; try discriminate H;
    injection H as <-; split; discriminate.
Qed.

Lemma parseInt16_two c1 c2 v1 v2 :
  hex_digit c1 = Some v1 → hex_digit c2 = Some v2 →
  parseInt16 (String c1 (String c2 EmptyString)) = Number (16 * v1 + v2).
Proof.
  intros H1 H2.
  destruct c1 as [[] [] [] [] [] [] [] []]; vm_compute in H1; try discriminate H1;
    injection H1 as <-;
    destruct c2 as [[] [] [] [] [] [] [] []]; vm_compute in H2; try discriminate H2;
    injection H2 as <-; vm_compute; reflexivity.
Qed.

(** X23: for a colour written as "#" and six hex digits, [hexToRgb] returns
    the three bytes the digit pairs denote, each between 0 and 255. *)
Theorem hexToRgb_six_digits c1 c2 c3 c4 c5 c6 v1 v2 v3 v4 v5 v6 :
  hex_digit c1 = Some v1 → hex_digit c2 = Some v2 → hex_digit c3 = Some v3 →
  hex_digit c4 = Some v4 → hex_digit c5 = Some v5 → hex_digit c6 = Some v6 →
  hexToRgb (Some (String "#" (String c1 (String c2 (String c3 (String c4
                    (String c5 (String c6 EmptyString))))))))
  = Normal (Number (16 * v1 + v2), Number (16 * v3 + v4), Number (16 * v5 + v6))
  ∧ (0 ≤ 16 * v1 + v2 ≤ 255)%Z ∧ (0 ≤ 16 * v3 + v4 ≤ 255)%Z ∧ (0 ≤ 16 * v5 + v6 ≤ 255)%Z.
Proof.
  intros H1 H2 H3 H4 H5 H6. split.
  - unfold hexToRgb. cbn [drop_hash]. rewrite bool_decide_eq_true_2 by reflexivity.
    cbn [substring].
    rewrite (parseInt16_two c1 c2 v1 v2 H1 H2), (parseInt16_two c3 c4 v3 v4 H3 H4),
      (parseInt16_two c5 c6 v5 v6 H5 H6). reflexivity.
  - apply hex_digit_range in H1, H2, H3, H4, H5, H6. lia.
Qed.

Lemma hexToRgb_six_digits_witness :
  hexToRgb (Some "#ff6ba6") = Normal (Number (16 * 15 + 15), Number (16 * 6 + 11), Number (16 * 10 + 6))
  ∧ (0 ≤ 16 * 15 + 15 ≤ 255)%Z ∧ (0 ≤ 16 * 6 + 11 ≤ 255)%Z ∧ (0 ≤ 16 * 10 + 6 ≤ 255)%Z.
Proof.
  apply (hexToRgb_six_digits "f" "f" "6" "b" "a" "6" 15 15 6 11 10 6); reflexivity.
Defined.

(** X24: [refreshCompact] puts the compact class on the body exactly when
    the window is less than 700 pixels high, leaves every other class of
    the body and the slides alone, and doing it twice is doing it once. *)
Theorem refreshCompact_class (p : Page) :
  contains "compact" (bodyClasses (refreshCompact p)) = (innerHeight p <? 700)%Z
  ∧ (∀ tok, tok ≠ "compact" →
            contains tok (bodyClasses (refreshCompact p)) = contains tok (bodyClasses p))
  ∧ nav (refreshCompact p) = nav p
  ∧ refreshCompact (refreshCompact p) = refreshCompact p.
Proof.
  unfold refreshCompact. cbn [bodyClasses set_bodyClasses innerHeight nav].
  split; [apply contains_toggle|]. split; [intros tok H; apply contains_toggle_ne; exact H|].
  split; [reflexivity|]. unfold set_bodyClasses. cbn. rewrite toggle_idem. reflexivity.
Qed.

Lemma refreshCompact_class_witness :
  contains "dark-text" (bodyClasses (refreshCompact demo_page))
  = contains "dark-text" (bodyClasses demo_page).
Proof.
  apply (proj1 (proj2 (refreshCompact_class demo_page))). discriminate.
Defined.
